(** * Color Craze: the game logic of [ColorCraze.ino]

    A shallow embedding of the sketch's game logic (classification of a
    colour-sensor sample, generation of the hidden set, collection of a
    guess, scoring, the attempt loop and the level prompt) and the
    properties established about it.

    Conventions.
    - C [int] values are [Z]. The sketch builds for targets whose [int] is
      16 bits (AVR) or wider (ARM); the width is the field [int_bits] of the
      host description below, and the one place where wrap-around can occur
      (the sum of two [uint16_t] channels in [getColor]) is written out.
      Loop counters are bounded by [numSlots] and never wrap.
    - C arrays are lists read and written by index.
    - The colour sensor is a script: the list of raw samples that successive
      [tcs.getRawData] calls will deliver. A polling loop that exhausts the
      script without seeing a sample it accepts has not returned ([None]).
    - The display ([matrix.*], [drawCard], [drawSlots], the text screens) and
      the [delay]s do not influence any value the game logic computes; they
      are left out. *)

From Stdlib Require Import ZArith Lia.
From stdpp Require Import base list strings.

Local Open Scope Z_scope.

(** ** Data *)

(** [enum Color {none, red, green, blue};] *)
Inductive Color : Set := none | red | green | blue.

#[global] Instance Color_eq_dec : EqDecision Color.
Proof. solve_decision. Defined.

#[global] Instance Color_inhabited : Inhabited Color := populate none.

(** The enumerators' integer values: [none = 0], [red = 1], [green = 2],
    [blue = 3]. *)
Definition Color_to_int (c : Color) : Z :=
  match c with none => 0 | red => 1 | green => 2 | blue => 3 end.

(** The cast [(enum Color)(z)]. The sketch only casts values in [1..3]
    (see [digit_range]); other values are sent to [none] here. *)
Definition Color_of_int (z : Z) : Color :=
  match z with 1 => red | 2 => green | 3 => blue | _ => none end.

(** What [tcs.getRawData(&r, &g, &b, &clearVal)] stores: four [uint16_t]. *)
Record RawReading : Set := mkRaw {
  raw_r : Z;
  raw_g : Z;
  raw_b : Z;
  raw_clear : Z
}.

Definition is_uint16 (z : Z) : Prop := 0 <= z < 65536.

Definition uint16_reading (s : RawReading) : Prop :=
  is_uint16 (raw_r s) /\ is_uint16 (raw_g s) /\ is_uint16 (raw_b s) /\
  is_uint16 (raw_clear s).

(** ** The host: what the sketch takes from the toolchain and the C library *)

(** [rand_next] is the generator's state transition and [rand_out] the value
    [rand()] returns from the new state; [srand(seed)] sets the state to
    [seed]. [rand()] lies in [0 .. RAND_MAX] and [RAND_MAX <= INT_MAX]. *)
Class Host : Type := {
  int_bits : Z;
  rand_next : Z -> Z;
  rand_out : Z -> Z;
  int_bits_cases : int_bits = 16 \/ 32 <= int_bits;
  rand_out_range : forall st, 0 <= rand_out st < 2 ^ (int_bits - 1)
}.

(** ** The sensor as a state-and-failure monad over the script *)

Definition Sensor (A : Type) : Type :=
  list RawReading -> option (A * list RawReading).

Definition ret {A} (a : A) : Sensor A := fun s => Some (a, s).

Definition bind {A B} (m : Sensor A) (k : A -> Sensor B) : Sensor B :=
  fun s => match m s with
           | Some (a, s') => k a s'
           | None => None
           end.

Declare Scope sensor_scope.
Delimit Scope sensor_scope with sensor.
Notation "x <- m ;; k" := (bind m (fun x => k))
  (at level 100, m at next level, right associativity) : sensor_scope.

Section Sketch.

Context `{H : Host}.

(** ** [getColor] (lines 62-83) *)

(** [g + b] on two [uint16_t] operands: where [int] is 16 bits they are
    [unsigned int] and the sum wraps modulo 2^16; where [int] is wider they
    are promoted to [int] and the sum is exact. *)
Definition uint16_add (x y : Z) : Z :=
  if int_bits =? 16 then (x + y) mod 2 ^ 16 else x + y.

(** The body of [getColor] after the sample has been read. *)
Definition classifySample (s : RawReading) : Color :=
  let clearVal := raw_clear s in
  let r := raw_r s in
  let g := raw_g s in
  let b := raw_b s in
  if clearVal >? 500 then
    if r >? uint16_add g b then red
    else if (b >? g) && (b >? r) then blue
    else if (g >? r) && (g >? b) then green
    else none
  else none.

(** [getColor()]: take the next sample of the script and classify it. *)
Definition getColor : Sensor Color :=
  fun s => match s with
           | [] => None
           | x :: s' => Some (classifySample x, s')
           end.

(** The classifier in the words of the specification, for a threshold
    [threshold]: nothing in front of the sensor when the clear channel is
    below the threshold; otherwise red when R exceeds G + B, else blue when
    B exceeds both G and R, else green when G exceeds both R and B, else
    nothing. *)
Definition SymbolClassifier_spec (threshold : Z) (s : RawReading) : Color :=
  if raw_clear s <? threshold then none
  else if raw_g s + raw_b s <? raw_r s then red
  else if (raw_g s <? raw_b s) && (raw_r s <? raw_b s) then blue
  else if (raw_r s <? raw_g s) && (raw_b s <? raw_g s) then green
  else none.

(** The sum [g + b] is computed without wrap-around: always so where [int]
    is wider than 16 bits, and for sums that fit 16 bits otherwise. *)
Definition sum_exact (s : RawReading) : Prop :=
  32 <= int_bits \/ raw_g s + raw_b s < 65536.

(** ** [displayNextCard] (lines 150-158)

    [color = prev; while (color == prev || color == none) color = getColor();]
    The loop polls the sensor; it is a recursion on the script, each
    iteration taking the next sample as [getColor] does. *)
Fixpoint displayNextCard_loop (prev color : Color) (s : list RawReading)
  : option (Color * list RawReading) :=
  if bool_decide (color = prev) || bool_decide (color = none) then
    match s with
    | [] => None
    | x :: s' => displayNextCard_loop prev (classifySample x) s'
    end
  else Some (color, s).

Definition displayNextCard (prev : Color) : Sensor Color :=
  let color := prev in
  displayNextCard_loop prev color.

(** ** [getCorrectSet] (lines 162-202) *)

(** The [while (index < numSlots)] loop; [remaining] is [numSlots - index],
    the number of iterations still to run. The casts [(enum Color)] are kept
    where the source has them. *)
Fixpoint getCorrectSet_loop (remaining : nat) (correctSet : list Color)
    (numSlots : Z) (index : nat) (num prev : Z) : list Color :=
  match remaining with
  | O => correctSet
  | S remaining' =>
      let digit := Color_to_int (Color_of_int (Z.rem num 3 + 1)) in
      let digit :=
        if digit =? prev then
          if negb (digit =? 3) then digit + 1 else 1
        else digit in
      let correctSet := <[index := Color_of_int digit]> correctSet in
      let prev := digit in
      let num := Z.quot num numSlots in
      getCorrectSet_loop remaining' correctSet numSlots (S index) num prev
  end.

(** [rng] is the state of the C library's generator when the function is
    entered and [entropy] the value [analogRead(A5)] returns. [pow(3,
    numSlots)] is taken as the exact power, which fits an [int] for the
    lengths 3, 4 and 5 the game uses. The result is the array after the call
    and the generator's state after the call. *)
Definition getCorrectSet (rng entropy : Z) (correctSet : list Color)
    (numSlots : Z) : list Color * Z :=
  let index := 0%nat in
  let numCombos := 3 ^ numSlots in
  let rng := entropy mod 2 ^ int_bits in          (* srand((unsigned)...) *)
  let rng := rand_next rng in                     (* rand() *)
  let num := Z.rem (rand_out rng) numCombos in
  let prev := -1 in
  (getCorrectSet_loop (Z.to_nat numSlots) correctSet numSlots index num prev,
   rng).

(** The generator in the words of the specification: the base-3 digits of
    [num], least significant first, digit [d] giving symbol [d + 1], a digit
    equal to the symbol emitted before it advanced one step in the cycle
    1 -> 2 -> 3 -> 1. [prev] is the integer value of the symbol emitted
    before ([-1] at the start). *)
Fixpoint SequenceGenerator_spec (len : nat) (num prev : Z) : list Color :=
  match len with
  | O => []
  | S len' =>
      let d := num mod 3 + 1 in
      let d := if d =? prev then (if d =? 3 then 1 else d + 1) else d in
      Color_of_int d :: SequenceGenerator_spec len' (num / 3) d
  end.

(** ** [removeWrongGuesses] (lines 328-356) *)

(** What one call computes: the value returned, the number shown by
    [printNumRightGuesses], and the array whose cells are drawn. *)
Record Scorecard : Set := mkScorecard {
  numWrongGuesses : Z;
  numRightGuesses : Z;
  guessedCorrectlySet : list Color
}.

(** The first [for] loop; [remaining] is [numSlots - i]. *)
Fixpoint removeWrongGuesses_loop (remaining : nat) (i : nat)
    (guessedSet correctSet guessedCorrectlySet : list Color)
    (numWrongGuesses : Z) : list Color * Z :=
  match remaining with
  | O => (guessedCorrectlySet, numWrongGuesses)
  | S remaining' =>
      if bool_decide (guessedSet !!! i <> correctSet !!! i) then
        removeWrongGuesses_loop remaining' (S i) guessedSet correctSet
          (<[i := none]> guessedCorrectlySet) (numWrongGuesses + 1)
      else
        removeWrongGuesses_loop remaining' (S i) guessedSet correctSet
          (<[i := guessedSet !!! i]> guessedCorrectlySet) numWrongGuesses
  end.

(** The local array [guessedCorrectlySet[numSlots]] is not initialised in
    the source; every cell is written before it is read
    ([removeWrongGuesses_masked]), so its initial cells are taken to be
    [none]. *)
Definition removeWrongGuesses (guessedSet correctSet : list Color)
    (numSlots : Z) : Scorecard :=
  let numWrongGuesses := 0 in
  let guessedCorrectlySet := replicate (Z.to_nat numSlots) none in
  let '(guessedCorrectlySet, numWrongGuesses) :=
    removeWrongGuesses_loop (Z.to_nat numSlots) 0 guessedSet correctSet
      guessedCorrectlySet numWrongGuesses in
  let numRightGuesses := numSlots - numWrongGuesses in
  mkScorecard numWrongGuesses numRightGuesses guessedCorrectlySet.

(** ** [readAndDisplayCards] (lines 415-422)

    The loop body [Color prev = displayNextCard(prev, i, numSlots);]
    declares a new [prev] that hides the function-level one, and in C++ the
    name is in scope in its own initialiser: the argument passed is the new,
    not yet initialised variable. Its value is indeterminate; [indet i] is
    the value it holds at iteration [i]. [displayNextCard] only compares it
    with classified colours, so a value that is no enumerator acts as [none]
    does. The function-level [prev = none] is never read. *)
Fixpoint readAndDisplayCards_loop (remaining : nat) (i : nat)
    (indet : nat -> Color) (guessedSet : list Color)
  : Sensor (list Color) :=
  match remaining with
  | O => ret guessedSet
  | S remaining' =>
      (prev <- displayNextCard (indet i) ;;
       readAndDisplayCards_loop remaining' (S i) indet
         (<[i := prev]> guessedSet))%sensor
  end.

Definition readAndDisplayCards (indet : nat -> Color)
    (guessedSet : list Color) (numSlots : Z) : Sensor (list Color) :=
  let prev := none in
  readAndDisplayCards_loop (Z.to_nat numSlots) 0 indet guessedSet.

(** The collector as the source's comments describe it (lines 16-19,
    148-149, 412-414): each slot is compared with the card accepted for the
    slot before it, [none] before slot 0. *)
Fixpoint collect_documented (remaining : nat) (i : nat) (prev : Color)
    (guessedSet : list Color) : Sensor (list Color) :=
  match remaining with
  | O => ret guessedSet
  | S remaining' =>
      (c <- displayNextCard prev ;;
       collect_documented remaining' (S i) c (<[i := c]> guessedSet))%sensor
  end.

(** ** [game] (lines 430-453) *)

(** What a finished play-through produced: the value [game] returns and, in
    order, the guess read at each attempt. *)
Record GameRun : Set := mkRun {
  outcome : bool;
  attempts : list (list Color)
}.

(** The [for (int i = 0; i < numSlots; i++)] loop; [remaining] is
    [numSlots - i]. [indet i] gives the indeterminate values of attempt
    [i]. *)
Fixpoint game_loop (remaining : nat) (i : nat) (indet : nat -> nat -> Color)
    (correctSet guessedSet : list Color) (numSlots : Z) : Sensor GameRun :=
  match remaining with
  | O => ret (mkRun false [])
  | S remaining' =>
      (guessedSet <- readAndDisplayCards (indet i) guessedSet numSlots ;;
       let numWrongGuesses :=
         numWrongGuesses (removeWrongGuesses guessedSet correctSet numSlots) in
       if numWrongGuesses =? 0 then ret (mkRun true [guessedSet])
       else
         run <- game_loop remaining' (S i) indet correctSet guessedSet
                  numSlots ;;
         ret (mkRun (outcome run) (guessedSet :: attempts run)))%sensor
  end.

(** The local arrays [correctSet[numSlots]] and [guessedSet[numSlots]] are
    not initialised in the source; [getCorrectSet] and [readAndDisplayCards]
    write every cell ([getCorrectSet_emitted], [collect_cells]), so
    their initial cells are taken to be [none]. [numGuesses] is computed and
    never used: the loop is bounded by [numSlots]. *)
Definition game (rng entropy : Z) (indet : nat -> nat -> Color) (level : Z)
  : Sensor GameRun :=
  let numSlots := level + 2 in
  let numGuesses := level + 2 in
  let correctSet := replicate (Z.to_nat numSlots) none in
  let correctSet := fst (getCorrectSet rng entropy correctSet numSlots) in
  let guessedSet := replicate (Z.to_nat numSlots) none in
  game_loop (Z.to_nat numSlots) 0 indet correctSet guessedSet numSlots.

(** ** [startScreen] (lines 206-240) *)

(** [while (color == none && counter < bound) { color = getColor(); ...;
    counter++; }], entered with [remaining = bound - counter]. *)
Fixpoint startScreen_poll (remaining : nat) (color : Color) (counter : Z)
  : Sensor (Color * Z) :=
  match remaining with
  | O => ret (color, counter)
  | S remaining' =>
      if bool_decide (color = none) then
        (color <- getColor ;;
         startScreen_poll remaining' color (counter + 1))%sensor
      else ret (color, counter)
  end.

(** The three final [if]s; control runs off the end of the function, with
    no value returned, for [none]. *)
Definition startScreen_level (color : Color) : option Z :=
  if bool_decide (color = green) then Some 1
  else if bool_decide (color = blue) then Some 2
  else if bool_decide (color = red) then Some 3
  else None.

(** The [while (startSignal == false)] loop. An iteration that leaves the
    signal unset has read 90 samples, so [fuel] beyond the length of the
    script is never used up ([startScreen_loop_first]). *)
Fixpoint startScreen_loop (fuel : nat) (color : Color) (startSignal : bool)
  : Sensor Color :=
  match fuel with
  | O => fun _ => None
  | S fuel' =>
      if negb startSignal then
        (let counter := 0 in
         polled <- startScreen_poll (Z.to_nat (10 - counter)) color counter ;;
         let '(color, counter) := polled in
         let startSignal :=
           if bool_decide (color <> none) then true else startSignal in
         polled <- startScreen_poll (Z.to_nat (90 - counter)) color counter ;;
         let '(color, counter) := polled in
         let startSignal :=
           if bool_decide (color <> none) then true else startSignal in
         startScreen_loop fuel' color startSignal)%sensor
      else ret color
  end.

Definition startScreen : Sensor Z :=
  fun s =>
    match startScreen_loop (S (length s)) none false s with
    | Some (color, s') =>
        match startScreen_level color with
        | Some level => Some (level, s')
        | None => None
        end
    | None => None
    end.

End Sketch.


(** ** Example hosts and sample cards *)

(** A 16-bit target ([int] of 16 bits, [RAND_MAX = 0x7FFF]) with a
    Park-Miller minimal-standard generator, the kind of generator the AVR C
    library has; a state of 0 is replaced before stepping. *)
Definition minstd_next (x : Z) : Z :=
  let x := if x =? 0 then 123459876 else x in
  let hi := Z.quot x 127773 in
  let lo := Z.rem x 127773 in
  let x := 16807 * lo - 2836 * hi in
  if x <? 0 then x + 2147483647 else x.

Lemma host16_rand_range (st : Z) : 0 <= st mod 32768 < 2 ^ (16 - 1).
Proof. change (2 ^ (16 - 1)) with 32768. apply Z.mod_pos_bound. lia. Qed.

Definition host16 : Host :=
  {| int_bits := 16;
     rand_next := minstd_next;
     rand_out := fun st => st mod 32768;
     int_bits_cases := or_introl eq_refl;
     rand_out_range := host16_rand_range |}.

(** A 32-bit target with the same generator and [RAND_MAX = 0x7FFFFFFF]. *)
Lemma host32_rand_range (st : Z) : 0 <= st mod 2147483648 < 2 ^ (32 - 1).
Proof. change (2 ^ (32 - 1)) with 2147483648. apply Z.mod_pos_bound. lia. Qed.

Lemma host32_int_bits : 32 = 16 \/ 32 <= 32.
Proof. right. lia. Qed.

Definition host32 : Host :=
  {| int_bits := 32;
     rand_next := minstd_next;
     rand_out := fun st => st mod 2147483648;
     int_bits_cases := host32_int_bits;
     rand_out_range := host32_rand_range |}.

(** Samples a red, a green and a blue card give, and the empty sensor. *)
Definition red_card : RawReading := mkRaw 3000 800 700 2000.
Definition green_card : RawReading := mkRaw 900 2500 1100 2000.
Definition blue_card : RawReading := mkRaw 700 1200 2800 2000.
Definition no_card : RawReading := mkRaw 40 50 45 120.

(** ** Auxiliary notions used in the statements *)

(** No two neighbouring cells hold the same symbol. *)
Definition no_adjacent_equal (l : list Color) : Prop :=
  forall (i : nat) (x y : Color),
    l !! i = Some x -> l !! S i = Some y -> x <> y.

(** The digit one iteration of the loop of [getCorrectSet] stores. *)
Definition next_digit (num prev : Z) : Z :=
  let digit := Color_to_int (Color_of_int (Z.rem num 3 + 1)) in
  if digit =? prev then
    if negb (digit =? 3) then digit + 1 else 1
  else digit.

(** The symbols the loop of [getCorrectSet] stores, in the order of the
    cells. *)
Fixpoint emitted (remaining : nat) (numSlots num prev : Z) : list Color :=
  match remaining with
  | O => []
  | S remaining' =>
      let digit := next_digit num prev in
      Color_of_int digit ::
        emitted remaining' numSlots (Z.quot num numSlots) digit
  end.

(** The number of indices at which two sequences agree. *)
Fixpoint agreements (guess target : list Color) : Z :=
  match guess, target with
  | g :: guess', t :: target' =>
      (if bool_decide (g = t) then 1 else 0) + agreements guess' target'
  | _, _ => 0
  end.

(** The cells the first loop of [removeWrongGuesses] stores, and the number
    of times it increments [numWrongGuesses]. *)
Definition masked (guess target : list Color) : list Color :=
  zip_with (fun g t => if bool_decide (g <> t) then none else g) guess target.

Fixpoint disagreements (guess target : list Color) : Z :=
  match guess, target with
  | g :: guess', t :: target' =>
      (if bool_decide (g <> t) then 1 else 0) + disagreements guess' target'
  | _, _ => 0
  end.

(** The first sample of the script that is classified as a colour, and the
    script after it. *)
Fixpoint first_card `{H : Host} (s : list RawReading)
  : option (Color * list RawReading) :=
  match s with
  | [] => None
  | x :: s' =>
      if bool_decide (classifySample x = none) then first_card s'
      else Some (classifySample x, s')
  end.

(** A guess scores every slot right. *)
Definition perfect (guessedSet correctSet : list Color) (numSlots : Z) : Prop :=
  numRightGuesses (removeWrongGuesses guessedSet correctSet numSlots)
  = numSlots.

#[global] Instance perfect_dec (guessedSet correctSet : list Color)
    (numSlots : Z) : Decision (perfect guessedSet correctSet numSlots).
Proof. unfold perfect. apply _. Defined.

(** The set [game] holds in [correctSet] at a level. *)
Definition target_of `{H : Host} (rng entropy level : Z) : list Color :=
  fst (getCorrectSet rng entropy
         (replicate (Z.to_nat (level + 2)) none) (level + 2)).

(** ** The display

    What the sketch sends to the LED matrix, as the list of calls in the
    order they are made. [Color333 r g b] stands for the value
    [matrix.Color333(r, g, b)]; [delay] is kept in the list where the source
    has it. *)
Record RGB : Set := Color333 { rgb_r : Z; rgb_g : Z; rgb_b : Z }.

Inductive Event : Set :=
| fillScreen (c : RGB)
| drawRect (x y w h : Z) (c : RGB)
| fillRect (x y w h : Z) (c : RGB)
| setCursor (x y : Z)
| setTextSize (size : Z)
| setTextColor (c : RGB)
| print (text : string)
| delay (ms : Z).

(** [clearScreen] (lines 54-56) *)
Definition clearScreen : list Event := [fillScreen (Color333 0 0 0)].

(** [drawSlots] (lines 87-102); [remaining] is [numSlots - i]. *)
Fixpoint drawSlots_loop (remaining : nat) (i numSlots : Z) : list Event :=
  match remaining with
  | O => []
  | S remaining' =>
      (if numSlots =? 3 then
         let startWidth := i * 11 in
         [drawRect startWidth 0 10 15 (Color333 1 1 1)]
       else []) ++
      (if numSlots =? 4 then
         let startWidth := i * 8 in
         [drawRect startWidth 0 7 15 (Color333 1 1 1)]
       else []) ++
      (if numSlots =? 5 then
         let startWidth := i * 6 + 1 in
         [drawRect startWidth 0 5 15 (Color333 1 1 1)]
       else []) ++
      drawSlots_loop remaining' (i + 1) numSlots
  end.

Definition drawSlots (numSlots : Z) : list Event :=
  drawSlots_loop (Z.to_nat numSlots) 0 numSlots.

(** [drawCard] (lines 106-144). The four tests on [color] are exclusive and
    cover the enumerators, so exactly one of them sets [r], [g] and [b]. *)
Definition drawCard (color : Color) (slot numSlots : Z) : list Event :=
  let '(r, g, b) :=
    match color with
    | none => (0, 0, 0)
    | red => (5, 0, 0)
    | green => (0, 3, 0)
    | blue => (0, 0, 7)
    end in
  (if numSlots =? 3 then
     let startWidth := slot * 11 + 1 in
     [fillRect startWidth 1 8 13 (Color333 r g b)]
   else []) ++
  (if numSlots =? 4 then
     let startWidth := slot * 8 + 1 in
     [fillRect startWidth 1 5 13 (Color333 r g b)]
   else []) ++
  (if numSlots =? 5 then
     let startWidth := slot * 6 + 2 in
     [fillRect startWidth 1 3 13 (Color333 r g b)]
   else []).

(** [printNumRightGuesses] (lines 360-388) *)
Definition printNumRightGuesses (numRightGuesses : Z) : list Event :=
  [setCursor 8 16; setTextColor (Color333 4 0 4)] ++
  (if numRightGuesses =? 0 then [setCursor 5 16; print "NONE"] else []) ++
  (if numRightGuesses =? 1 then [print "ONE"] else []) ++
  (if numRightGuesses =? 2 then [print "TWO"] else []) ++
  (if numRightGuesses =? 3 then [setCursor 1 16; print "THREE"] else []) ++
  (if numRightGuesses =? 4 then [setCursor 5 16; print "FOUR"] else []) ++
  (if numRightGuesses =? 5 then [setCursor 5 16; print "FIVE"] else []) ++
  [setCursor 2 24; print "RIGHT"; delay 1000].

(** [loseScreen] (lines 287-305) and [winScreen] (lines 308-324) *)
Definition loseScreen : list Event :=
  [setCursor 8 10;
   setTextColor (Color333 7 0 0); print "Y";
   setTextColor (Color333 0 7 0); print "O";
   setTextColor (Color333 0 0 7); print "U";
   setCursor 5 18;
   setTextColor (Color333 7 0 0); print "L";
   setTextColor (Color333 0 7 0); print "O";
   setTextColor (Color333 0 7 7); print "S";
   setTextColor (Color333 0 0 7); print "E"].

Definition winScreen : list Event :=
  [setCursor 8 10;
   setTextColor (Color333 7 0 0); print "Y";
   setTextColor (Color333 0 7 0); print "O";
   setTextColor (Color333 0 0 7); print "U";
   setCursor 8 18;
   setTextColor (Color333 7 0 0); print "W";
   setTextColor (Color333 0 7 0); print "I";
   setTextColor (Color333 0 0 7); print "N"].

(** What [removeWrongGuesses] (lines 328-356) sends to the display: the
    [delay(500)] of each wrong guess in the first loop, the cards of the
    second loop, the count, and the empty slots. *)
Fixpoint removeWrongGuesses_delays (remaining : nat) (i : nat)
    (guessedSet correctSet : list Color) : list Event :=
  match remaining with
  | O => []
  | S remaining' =>
      if bool_decide (guessedSet !!! i <> correctSet !!! i) then
        delay 500 ::
          removeWrongGuesses_delays remaining' (S i) guessedSet correctSet
      else removeWrongGuesses_delays remaining' (S i) guessedSet correctSet
  end.

Fixpoint removeWrongGuesses_cards (remaining : nat) (j : nat)
    (guessedCorrectlySet : list Color) (numSlots : Z) : list Event :=
  match remaining with
  | O => []
  | S remaining' =>
      drawCard (guessedCorrectlySet !!! j) (Z.of_nat j) numSlots ++
      removeWrongGuesses_cards remaining' (S j) guessedCorrectlySet numSlots
  end.

Definition removeWrongGuesses_events (guessedSet correctSet : list Color)
    (numSlots : Z) : list Event :=
  let score := removeWrongGuesses guessedSet correctSet numSlots in
  removeWrongGuesses_delays (Z.to_nat numSlots) 0 guessedSet correctSet ++
  removeWrongGuesses_cards (Z.to_nat numSlots) 0 (guessedCorrectlySet score)
    numSlots ++
  printNumRightGuesses (numRightGuesses score) ++
  clearScreen ++
  drawSlots numSlots.

(** The texts a list of display calls prints, joined in order. *)
Fixpoint printed_text (events : list Event) : string :=
  match events with
  | [] => ""
  | print text :: events' => text +:+ printed_text events'
  | _ :: events' => printed_text events'
  end.

(** The rectangle a drawing call covers: left column, top row, width and
    height. *)
Definition rectangle (e : Event) : option (Z * Z * Z * Z) :=
  match e with
  | drawRect x y w h _ | fillRect x y w h _ => Some (x, y, w, h)
  | _ => None
  end.

(** ** [loop] (lines 467-486)

    One pass: the level prompt, the game, the closing screen. The result is
    the level chosen, the run of the game and the display calls made after
    [game] has returned. *)
Definition loop `{H : Host} (rng entropy : Z) (indet : nat -> nat -> Color)
  : Sensor (Z * GameRun * list Event) :=
  (level <- startScreen ;;
   run <- game rng entropy indet level ;;
   ret (level, run,
        clearScreen ++
        (if outcome run then winScreen else loseScreen) ++
        [delay 3000] ++
        clearScreen))%sensor.

(** * Properties *)

(** ** The classifier *)

Lemma uint16_add_exact `{H : Host} (s : RawReading) :
  uint16_reading s -> sum_exact s ->
  uint16_add (raw_g s) (raw_b s) = raw_g s + raw_b s.
Proof.
  intros (_ & [Hg _] & [Hb _] & _) Hsum. unfold uint16_add.
  destruct (Z.eqb_spec int_bits 16) as [E|_]; [|reflexivity].
  destruct Hsum as [Hwide|Hfit]; [lia|].
  change (2 ^ 16) with 65536. apply Z.mod_small. lia.
Qed.

(** C10. A sample whose clear channel is 500 or less is classified [none]
    whatever its r, g and b channels are; a sample classified as a colour has
    a clear channel strictly greater than 500. *)
Theorem getColor_threshold `{H : Host} (s : RawReading) :
  (raw_clear s <= 500 -> classifySample s = none) /\
  (classifySample s <> none -> 500 < raw_clear s).
Proof.
  assert (Hlow : raw_clear s <= 500 -> classifySample s = none).
  { intros Hle. unfold classifySample.
    destruct (Z.gtb_spec (raw_clear s) 500) as [Hgt|_]; [lia|reflexivity]. }
  split; [exact Hlow|].
  intros Hcol. destruct (Z.le_gt_cases (raw_clear s) 500) as [Hle|Hgt].
  - contradiction (Hcol (Hlow Hle)).
  - exact Hgt.
Qed.

Lemma getColor_threshold_witness :
  classifySample (H := host16) (mkRaw 60000 10 10 500) = none.
Proof.
  apply (proj1 (getColor_threshold (H := host16) (mkRaw 60000 10 10 500))).
  simpl. lia.
Defined.

(** C7, as stated, fails. With the threshold 500 of the source, a sample
    whose clear channel is exactly 500 is not below the threshold, yet it is
    classified [none]; and on a target with a 16-bit [int] the sum g + b
    wraps, so a sample whose r does not exceed g + b is classified red. *)
Lemma getColor_not_spec :
  (classifySample (H := host16) (mkRaw 1000 0 0 500) = none /\
   classifySample (H := host32) (mkRaw 1000 0 0 500) = none /\
   SymbolClassifier_spec 500 (mkRaw 1000 0 0 500) = red) /\
  (classifySample (H := host16) (mkRaw 20000 40000 40000 600) = red /\
   SymbolClassifier_spec 500 (mkRaw 20000 40000 40000 600) = none).
Proof. repeat split; vm_compute; reflexivity. Qed.

(** C7, amended. For every sample of 16-bit channels whose sum g + b is
    computed without wrap-around, the classifier returns: [none] when the
    clear channel is at most 500 (below 501); otherwise [red] when r exceeds
    g + b, else [blue] when b exceeds both g and r, else [green] when g
    exceeds both r and b, else [none]. *)
Theorem getColor_classifies `{H : Host} (s : RawReading) :
  uint16_reading s -> sum_exact s ->
  classifySample s = SymbolClassifier_spec 501 s.
Proof.
  intros Hrange Hsum. unfold classifySample, SymbolClassifier_spec.
  rewrite (uint16_add_exact s Hrange Hsum).
  rewrite !Z.gtb_ltb.
  destruct (Z.ltb_spec 500 (raw_clear s)) as [Hhi|Hlo];
    destruct (Z.ltb_spec (raw_clear s) 501) as [Hlt|Hge];
    try lia; reflexivity.
Qed.

Lemma getColor_classifies_witness :
  classifySample (H := host16) blue_card = blue.
Proof.
  rewrite (getColor_classifies (H := host16) blue_card).
  - vm_compute. reflexivity.
  - unfold uint16_reading, is_uint16. simpl. lia.
  - right. simpl. lia.
Defined.

(** ** The generator *)

Lemma getCorrectSet_loop_emitted (remaining : nat) :
  forall (pre old : list Color) (numSlots num prev : Z),
    length old = remaining ->
    getCorrectSet_loop remaining (pre ++ old) numSlots (length pre) num prev
    = pre ++ emitted remaining numSlots num prev.
Proof.
  induction remaining as [|n IH]; intros pre old numSlots num prev Hlen.
  - destruct old; [reflexivity|discriminate].
  - destruct old as [|o old]; [discriminate|].
    injection Hlen as Hlen.
    cbn [getCorrectSet_loop emitted]. cbv zeta. fold (next_digit num prev).
    rewrite insert_app_r_alt, Nat.sub_diag by lia.
    change (<[0%nat := ?c]> (o :: old)) with (c :: old).
    rewrite (cons_middle _ pre old), app_assoc.
    replace (S (length pre))
      with (length (pre ++ [Color_of_int (next_digit num prev)]))
      by (rewrite length_app; simpl; lia).
    rewrite (IH _ old) by exact Hlen.
    rewrite <- app_assoc. reflexivity.
Qed.

(** The digit stored is one of 1, 2, 3 and differs from the one stored
    before. *)
Lemma digit_range (num prev : Z) :
  0 <= num -> 1 <= next_digit num prev <= 3 /\ next_digit num prev <> prev.
Proof.
  intros Hnum. unfold next_digit.
  pose proof (Z.rem_bound_pos num 3 Hnum ltac:(lia)) as Hrem.
  assert (Hcases : Z.rem num 3 = 0 \/ Z.rem num 3 = 1 \/ Z.rem num 3 = 2)
    by lia.
  destruct Hcases as [-> | [-> | ->]].
  - change (Color_to_int (Color_of_int (0 + 1))) with 1.
    destruct (Z.eqb_spec 1 prev); simpl; lia.
  - change (Color_to_int (Color_of_int (1 + 1))) with 2.
    destruct (Z.eqb_spec 2 prev); simpl; lia.
  - change (Color_to_int (Color_of_int (2 + 1))) with 3.
    destruct (Z.eqb_spec 3 prev); simpl; lia.
Qed.

Lemma Color_of_digit (d : Z) :
  1 <= d <= 3 -> Color_of_int d <> none /\ Color_to_int (Color_of_int d) = d.
Proof.
  intros Hd. assert (Hcases : d = 1 \/ d = 2 \/ d = 3) by lia.
  destruct Hcases as [-> | [-> | ->]]; simpl; split; congruence.
Qed.

Lemma emitted_length (remaining : nat) (numSlots num prev : Z) :
  length (emitted remaining numSlots num prev) = remaining.
Proof.
  revert num prev. induction remaining as [|n IH]; intros num prev; simpl.
  - reflexivity.
  - now rewrite IH.
Qed.

Lemma emitted_not_none (remaining : nat) :
  forall numSlots num prev,
    0 < numSlots -> 0 <= num ->
    Forall (fun c => c <> none) (emitted remaining numSlots num prev).
Proof.
  induction remaining as [|n IH]; intros numSlots num prev Hslots Hnum; simpl.
  - constructor.
  - constructor.
    + apply Color_of_digit, digit_range, Hnum.
    + apply IH; [exact Hslots|]. apply Z.quot_pos; assumption.
Qed.

Lemma emitted_head (remaining : nat) (numSlots num prev : Z) (c : Color) :
  0 <= num ->
  emitted remaining numSlots num prev !! 0%nat = Some c ->
  Color_to_int c <> prev.
Proof.
  intros Hnum. destruct remaining as [|n]; simpl; [discriminate|].
  intros [= <-]. destruct (digit_range num prev Hnum) as [Hr Hne].
  now rewrite (proj2 (Color_of_digit _ Hr)).
Qed.

Lemma emitted_no_adjacent (remaining : nat) :
  forall numSlots num prev,
    0 < numSlots -> 0 <= num ->
    no_adjacent_equal (emitted remaining numSlots num prev).
Proof.
  induction remaining as [|n IH]; intros numSlots num prev Hslots Hnum.
  - intros i x y Hx. discriminate.
  - assert (Hq : 0 <= Z.quot num numSlots) by (apply Z.quot_pos; assumption).
    intros [|i] x y; simpl.
    + intros [= <-] Hy.
      apply (emitted_head _ _ _ _ _ Hq) in Hy.
      destruct (digit_range num prev Hnum) as [Hr _].
      intros E. apply Hy. rewrite <- E. apply Color_of_digit, Hr.
    + apply (IH numSlots _ _ Hslots Hq).
Qed.

Lemma getCorrectSet_emitted `{H : Host} (rng entropy : Z)
    (correctSet : list Color) (numSlots : Z) :
  length correctSet = Z.to_nat numSlots ->
  getCorrectSet rng entropy correctSet numSlots
  = (emitted (Z.to_nat numSlots) numSlots
       (Z.rem (rand_out (rand_next (entropy mod 2 ^ int_bits)))
          (3 ^ numSlots)) (-1),
     rand_next (entropy mod 2 ^ int_bits)).
Proof.
  intros Hlen. unfold getCorrectSet. f_equal.
  exact (getCorrectSet_loop_emitted _ [] correctSet _ _ _ Hlen).
Qed.

Lemma drawn_nonneg `{H : Host} (st numSlots : Z) :
  0 <= numSlots -> 0 <= Z.rem (rand_out st) (3 ^ numSlots).
Proof.
  intros Hslots. apply Z.rem_nonneg.
  - apply Z.pow_nonzero; lia.
  - apply rand_out_range.
Qed.

(** C8. For every length of at least 1, the set [getCorrectSet] leaves in
    the array has exactly that many symbols, none of them [none], and no two
    neighbours equal. *)
Theorem getCorrectSet_valid `{H : Host} (rng entropy : Z)
    (correctSet : list Color) (numSlots : Z) :
  1 <= numSlots ->
  length correctSet = Z.to_nat numSlots ->
  Z.of_nat (length (fst (getCorrectSet rng entropy correctSet numSlots)))
  = numSlots /\
  Forall (fun c => c <> none)
    (fst (getCorrectSet rng entropy correctSet numSlots)) /\
  no_adjacent_equal (fst (getCorrectSet rng entropy correctSet numSlots)).
Proof.
  intros Hslots Hlen. rewrite (getCorrectSet_emitted _ _ _ _ Hlen). simpl.
  pose proof (drawn_nonneg (rand_next (entropy mod 2 ^ int_bits)) numSlots
                ltac:(lia)) as Hnum.
  split; [|split].
  - rewrite emitted_length. lia.
  - apply emitted_not_none; [lia|exact Hnum].
  - apply emitted_no_adjacent; [lia|exact Hnum].
Qed.

Lemma getCorrectSet_valid_witness :
  Z.of_nat (length (fst (getCorrectSet (H := host16) 0 512
                           (replicate 4 none) 4))) = 4 /\
  Forall (fun c => c <> none)
    (fst (getCorrectSet (H := host16) 0 512 (replicate 4 none) 4)) /\
  no_adjacent_equal
    (fst (getCorrectSet (H := host16) 0 512 (replicate 4 none) 4)).
Proof.
  apply (getCorrectSet_valid (H := host16) 0 512 (replicate 4 none) 4).
  - lia.
  - reflexivity.
Defined.

(** C9. Two calls of [getCorrectSet] with the same length and the same
    analog reading leave the same set in the array (and the generator in the
    same state), whatever the generator's state and the array's cells were
    before each call. *)
Theorem getCorrectSet_deterministic `{H : Host} (rng1 rng2 entropy : Z)
    (correctSet1 correctSet2 : list Color) (numSlots : Z) :
  length correctSet1 = Z.to_nat numSlots ->
  length correctSet2 = Z.to_nat numSlots ->
  getCorrectSet rng1 entropy correctSet1 numSlots
  = getCorrectSet rng2 entropy correctSet2 numSlots.
Proof.
  intros Hlen1 Hlen2.
  rewrite (getCorrectSet_emitted rng1 _ _ _ Hlen1).
  rewrite (getCorrectSet_emitted rng2 _ _ _ Hlen2).
  reflexivity.
Qed.

Lemma getCorrectSet_deterministic_witness :
  getCorrectSet (H := host16) 1 700 [none; none; none; none; none] 5
  = getCorrectSet (H := host16) 16807 700 [red; blue; red; green; none] 5.
Proof.
  apply (getCorrectSet_deterministic (H := host16)); reflexivity.
Defined.

(** Where the array has three slots the loop divides by 3 and the set is the
    base-3 decomposition of the specification. *)
Lemma emitted_base3 (remaining : nat) :
  forall num prev,
    0 <= num ->
    emitted remaining 3 num prev = SequenceGenerator_spec remaining num prev.
Proof.
  induction remaining as [|n IH]; intros num prev Hnum; [reflexivity|].
  cbn [emitted SequenceGenerator_spec]. cbv zeta.
  assert (Hd : next_digit num prev
               = (if num mod 3 + 1 =? prev
                  then if num mod 3 + 1 =? 3 then 1 else num mod 3 + 1 + 1
                  else num mod 3 + 1)).
  { unfold next_digit. rewrite Z.rem_mod_nonneg by lia.
    pose proof (Z.mod_pos_bound num 3 ltac:(lia)) as Hm.
    rewrite (proj2 (Color_of_digit (num mod 3 + 1) ltac:(lia))).
    destruct (num mod 3 + 1 =? prev); [|reflexivity].
    destruct (num mod 3 + 1 =? 3); reflexivity. }
  rewrite <- Hd, Z.quot_div_nonneg by lia.
  f_equal. apply IH. apply Z.div_pos; lia.
Qed.

Lemma getCorrectSet_base3_three_slots `{H : Host} (rng entropy : Z)
    (correctSet : list Color) :
  length correctSet = 3%nat ->
  fst (getCorrectSet rng entropy correctSet 3)
  = SequenceGenerator_spec 3
      (Z.rem (rand_out (rand_next (entropy mod 2 ^ int_bits))) (3 ^ 3)) (-1).
Proof.
  intros Hlen. rewrite (getCorrectSet_emitted _ _ _ 3 Hlen).
  cbn [fst]. change (Z.to_nat 3) with 3%nat.
  apply emitted_base3, (drawn_nonneg _ 3). lia.
Qed.

(** C1 fails on the code. With four slots and the number 6 drawn, the base-3
    digits 0, 2, 0, 0 give red, blue, red, green; the loop divides by the
    number of slots instead of 3 and stores red, green, red, green. The same
    happens from an analog reading of 512 on the 16-bit example host, where
    the number drawn is 42. *)
Theorem getCorrectSet_divides_by_numSlots :
  getCorrectSet_loop 4 (replicate 4 none) 4 0 6 (-1)
  = [red; green; red; green] /\
  SequenceGenerator_spec 4 6 (-1) = [red; blue; red; green] /\
  Z.rem (rand_out (Host := host16)
           (rand_next (Host := host16) (512 mod 2 ^ 16))) (3 ^ 4) = 42 /\
  fst (getCorrectSet (H := host16) 0 512 (replicate 4 none) 4)
  = [red; green; blue; red] /\
  SequenceGenerator_spec 4 42 (-1) = [red; blue; green; blue].
Proof. repeat split; vm_compute; reflexivity. Qed.

(** ** Scoring *)

Lemma removeWrongGuesses_loop_masked (remaining : nat) :
  forall (gpre gsuf tpre tsuf opre osuf : list Color) (wrong : Z),
    length gpre = length opre -> length tpre = length opre ->
    length gsuf = remaining -> length tsuf = remaining ->
    length osuf = remaining ->
    removeWrongGuesses_loop remaining (length opre) (gpre ++ gsuf)
      (tpre ++ tsuf) (opre ++ osuf) wrong
    = (opre ++ masked gsuf tsuf, wrong + disagreements gsuf tsuf).
Proof.
  induction remaining as [|n IH];
    intros gpre gsuf tpre tsuf opre osuf wrong Hg Ht Hgs Hts Hos.
  - destruct gsuf, tsuf, osuf; try discriminate. simpl.
    now rewrite Z.add_0_r.
  - destruct gsuf as [|g gsuf], tsuf as [|t tsuf], osuf as [|o osuf];
      try discriminate.
    injection Hgs as Hgs. injection Hts as Hts. injection Hos as Hos.
    cbn [removeWrongGuesses_loop].
    rewrite !list_lookup_total_middle by congruence.
    rewrite !insert_app_r_alt, !Nat.sub_diag by lia.
    change (<[0%nat := ?c]> (o :: osuf)) with (c :: osuf).
    assert (Hstep : forall c : Color,
              S (length opre) = length (opre ++ [c]))
      by (intros c; rewrite length_app; simpl; lia).
    unfold masked. cbn [zip_with disagreements].
    destruct (bool_decide (g <> t)).
    + rewrite (Hstep none).
      rewrite (cons_middle g gpre gsuf), (cons_middle t tpre tsuf),
        (cons_middle none opre osuf), !app_assoc.
      rewrite IH; try assumption;
        try (rewrite !length_app; simpl; lia).
      rewrite <- app_assoc. f_equal. lia.
    + rewrite (Hstep g).
      rewrite (cons_middle g gpre gsuf) at 1.
      rewrite (cons_middle t tpre tsuf), (cons_middle g opre osuf),
        !app_assoc.
      rewrite IH; try assumption;
        try (rewrite !length_app; simpl; lia).
      rewrite <- app_assoc. f_equal.
Qed.

Lemma removeWrongGuesses_masked (guess target : list Color) (numSlots : Z) :
  length guess = Z.to_nat numSlots ->
  length target = Z.to_nat numSlots ->
  removeWrongGuesses guess target numSlots
  = mkScorecard (disagreements guess target)
      (numSlots - disagreements guess target) (masked guess target).
Proof.
  intros Hg Ht. unfold removeWrongGuesses.
  pose proof (removeWrongGuesses_loop_masked (Z.to_nat numSlots)
                [] guess [] target [] (replicate (Z.to_nat numSlots) none) 0
                eq_refl eq_refl Hg Ht (length_replicate _ _)) as Hloop.
  cbn [app length] in Hloop. rewrite Hloop, Z.add_0_l. reflexivity.
Qed.

Lemma agreements_disagreements (guess : list Color) :
  forall target,
    length guess = length target ->
    agreements guess target + disagreements guess target
    = Z.of_nat (length guess).
Proof.
  induction guess as [|g guess IH]; intros [|t target] Hlen;
    try discriminate; [reflexivity|].
  injection Hlen as Hlen. specialize (IH target Hlen).
  cbn [agreements disagreements length].
  destruct (decide (g = t)) as [E|E].
  - rewrite (bool_decide_eq_true_2 _ E).
    rewrite (bool_decide_eq_false_2 (g <> t)) by tauto. lia.
  - rewrite (bool_decide_eq_false_2 _ E), (bool_decide_eq_true_2 _ E). lia.
Qed.

Lemma masked_self (a : list Color) : masked a a = a.
Proof.
  unfold masked. induction a as [|x a IH]; [reflexivity|].
  cbn [zip_with]. rewrite IH.
  now rewrite (bool_decide_eq_false_2 (x <> x)) by tauto.
Qed.

Lemma agreements_self (a : list Color) : agreements a a = Z.of_nat (length a).
Proof.
  induction a as [|x a IH]; [reflexivity|].
  cbn [agreements length]. rewrite IH, bool_decide_eq_true_2 by reflexivity.
  lia.
Qed.

Lemma masked_lookup (guess target : list Color) (i : nat) (g t : Color) :
  guess !! i = Some g -> target !! i = Some t ->
  masked guess target !! i = Some (if bool_decide (g <> t) then none else g).
Proof.
  intros Hg Ht. unfold masked. rewrite lookup_zip_with, Hg. simpl.
  rewrite Ht. reflexivity.
Qed.

(** C4. For two sequences of the length [numSlots], [removeWrongGuesses]
    shows as the number of right guesses the number of indices at which they
    agree (and returns the number at which they differ); the array it draws
    has the same length, holds the guessed symbol wherever the two agree and
    [none] wherever they differ, and, the symbols of a guess never being
    [none], holds [none] exactly at the indices where they differ. A
    sequence scored against itself has every guess right and is drawn
    unchanged. *)
Theorem removeWrongGuesses_score (guess target : list Color) (numSlots : Z) :
  Z.of_nat (length guess) = numSlots ->
  Z.of_nat (length target) = numSlots ->
  numRightGuesses (removeWrongGuesses guess target numSlots)
  = agreements guess target /\
  numWrongGuesses (removeWrongGuesses guess target numSlots)
  = numSlots - agreements guess target /\
  length (guessedCorrectlySet (removeWrongGuesses guess target numSlots))
  = length guess /\
  (forall (i : nat) (g t : Color),
      guess !! i = Some g -> target !! i = Some t ->
      (g = t ->
       guessedCorrectlySet (removeWrongGuesses guess target numSlots) !! i
       = Some g) /\
      (g <> t ->
       guessedCorrectlySet (removeWrongGuesses guess target numSlots) !! i
       = Some none) /\
      (g <> none ->
       (guessedCorrectlySet (removeWrongGuesses guess target numSlots) !! i
        = Some none <-> g <> t))) /\
  (guess = target ->
   numRightGuesses (removeWrongGuesses guess target numSlots) = numSlots /\
   guessedCorrectlySet (removeWrongGuesses guess target numSlots) = guess).
Proof.
  intros Hg Ht.
  assert (Hlen : length guess = length target) by lia.
  rewrite removeWrongGuesses_masked by lia. cbn [numRightGuesses
    numWrongGuesses guessedCorrectlySet].
  pose proof (agreements_disagreements guess target Hlen) as Hsum.
  split; [lia|]. split; [lia|]. split.
  { unfold masked. rewrite length_zip_with. lia. }
  split.
  - intros i g t Hgi Hti. rewrite (masked_lookup _ _ _ _ _ Hgi Hti).
    destruct (decide (g = t)) as [E|E].
    + rewrite (bool_decide_eq_false_2 (g <> t)) by tauto.
      split; [reflexivity|]. split; [tauto|].
      intros Hnone. split; [intros [= ->]; tauto|tauto].
    + rewrite (bool_decide_eq_true_2 _ E). tauto.
  - intros <-. rewrite masked_self. split; [|reflexivity].
    pose proof (agreements_self guess). lia.
Qed.

Lemma removeWrongGuesses_score_witness :
  numRightGuesses (removeWrongGuesses [red; green; blue; red]
                     [red; blue; green; red] 4) = 2 /\
  guessedCorrectlySet (removeWrongGuesses [red; green; blue; red]
                         [red; blue; green; red] 4)
  = [red; none; none; red].
Proof.
  destruct (removeWrongGuesses_score [red; green; blue; red]
              [red; blue; green; red] 4 eq_refl eq_refl)
    as (Hright & _ & _ & _ & _).
  split; [exact Hright|vm_compute; reflexivity].
Defined.

(** ** Collecting a guess *)

(** The card [displayNextCard] returns is a colour and differs from the
    argument [prev]. *)
Lemma displayNextCard_accepts `{H : Host} (prev : Color) (s : list RawReading) :
  forall color c s',
    displayNextCard_loop prev color s = Some (c, s') ->
    c <> prev /\ c <> none.
Proof.
  induction s as [|x s IH]; intros color c s'; simpl.
  - destruct (decide (color = prev)) as [E|E].
    + rewrite (bool_decide_eq_true_2 _ E). discriminate.
    + rewrite (bool_decide_eq_false_2 _ E). simpl.
      destruct (decide (color = none)) as [E'|E'].
      * rewrite (bool_decide_eq_true_2 _ E'). discriminate.
      * rewrite (bool_decide_eq_false_2 _ E'). intros [= <- <-]. tauto.
  - destruct (decide (color = prev)) as [E|E].
    + rewrite (bool_decide_eq_true_2 _ E). simpl. apply IH.
    + rewrite (bool_decide_eq_false_2 _ E). simpl.
      destruct (decide (color = none)) as [E'|E'].
      * rewrite (bool_decide_eq_true_2 _ E'). apply IH.
      * rewrite (bool_decide_eq_false_2 _ E'). intros [= <- <-]. tauto.
Qed.

(** The guess read has the length of the array; every cell written holds a
    colour, one that differs from the indeterminate value it was compared
    with; the cells before the first one written are unchanged. *)
Lemma collect_cells `{H : Host} (indet : nat -> Color) (remaining : nat) :
  forall (i : nat) (guessedSet : list Color) s guess s',
    readAndDisplayCards_loop remaining i indet guessedSet s
    = Some (guess, s') ->
    length guess = length guessedSet /\
    (forall j, (j < i)%nat -> guess !! j = guessedSet !! j) /\
    (forall j c, (i <= j < i + remaining)%nat -> guess !! j = Some c ->
                 c <> none /\ c <> indet j).
Proof.
  induction remaining as [|n IH]; intros i guessedSet s guess s'.
  - intros [= <- <-]. split; [reflexivity|]. split; [reflexivity|].
    intros j c Hj. lia.
  - cbn [readAndDisplayCards_loop]. unfold bind, displayNextCard.
    destruct (displayNextCard_loop (indet i) (indet i) s) as [[c0 s0]|] eqn:E;
      [|discriminate].
    intros Hrest. apply IH in Hrest as (Hlen & Hbefore & Hcells).
    rewrite length_insert in Hlen.
    split; [exact Hlen|]. split.
    + intros j Hj. rewrite Hbefore by lia.
      apply list_lookup_insert_ne. lia.
    + intros j c Hj Hc. destruct (decide (j = i)) as [->|Hne].
      * rewrite Hbefore in Hc by lia.
        destruct (decide (i < length guessedSet)%nat) as [Hin|Hout].
        -- rewrite list_lookup_insert_eq in Hc by exact Hin.
           injection Hc as <-.
           apply displayNextCard_accepts in E. tauto.
        -- rewrite list_insert_ge in Hc by lia.
           apply lookup_lt_Some in Hc. lia.
      * apply Hcells; [lia|exact Hc].
Qed.

Lemma collect_length `{H : Host} (indet : nat -> Color)
    (guessedSet : list Color) (numSlots : Z) s guess s' :
  readAndDisplayCards indet guessedSet numSlots s = Some (guess, s') ->
  length guess = length guessedSet.
Proof. intros Hread. apply (collect_cells _ _ _ _ _ _ _ Hread). Qed.

(** C2 fails on the code. With two slots, the sensor showing a green card
    twice and then a blue one, and the uninitialised [prev] of the loop body
    holding 0 ([none]) each time, the guess read is green, green: the second
    slot takes the repeated card. Read as the comments describe it, the
    second slot waits for the blue card. *)
Theorem readAndDisplayCards_repeats_card :
  readAndDisplayCards (H := host16) (fun _ => none) [none; none] 2
    [green_card; green_card; blue_card]
  = Some ([green; green], [blue_card]) /\
  collect_documented (H := host16) 2 0 none [none; none]
    [green_card; green_card; blue_card]
  = Some ([green; blue], []).
Proof. split; vm_compute; reflexivity. Qed.

(** ** The attempt loop *)

Lemma perfect_iff (guessedSet correctSet : list Color) (numSlots : Z) :
  perfect guessedSet correctSet numSlots <->
  numWrongGuesses (removeWrongGuesses guessedSet correctSet numSlots) = 0.
Proof.
  unfold perfect, removeWrongGuesses.
  destruct (removeWrongGuesses_loop _ _ _ _ _ _) as [masked_set wrong].
  cbn [numRightGuesses numWrongGuesses]. lia.
Qed.

Lemma disagreements_self (a : list Color) : disagreements a a = 0.
Proof.
  induction a as [|x a IH]; [reflexivity|].
  cbn [disagreements]. rewrite IH.
  now rewrite (bool_decide_eq_false_2 (x <> x)) by tauto.
Qed.

Lemma perfect_self (a : list Color) (numSlots : Z) :
  length a = Z.to_nat numSlots -> perfect a a numSlots.
Proof.
  intros Hlen. apply perfect_iff.
  rewrite removeWrongGuesses_masked by exact Hlen.
  apply disagreements_self.
Qed.

Lemma getCorrectSet_length `{H : Host} (rng entropy : Z)
    (correctSet : list Color) (numSlots : Z) :
  length correctSet = Z.to_nat numSlots ->
  length (fst (getCorrectSet rng entropy correctSet numSlots))
  = Z.to_nat numSlots.
Proof.
  intros Hlen. rewrite (getCorrectSet_emitted _ _ _ _ Hlen).
  apply emitted_length.
Qed.

Section AttemptLoop.

Context `{H : Host}.
Variable indet : nat -> nat -> Color.
Variable correctSet : list Color.
Variable numSlots : Z.

(** One iteration of the loop of [game], by the score of the guess read. *)
Lemma game_loop_win (remaining i : nat) (guessedSet : list Color) s guess s' :
  readAndDisplayCards (indet i) guessedSet numSlots s = Some (guess, s') ->
  perfect guess correctSet numSlots ->
  game_loop (S remaining) i indet correctSet guessedSet numSlots s
  = Some (mkRun true [guess], s').
Proof.
  intros Hread Hperfect. apply perfect_iff in Hperfect.
  cbn [game_loop]. unfold bind. rewrite Hread, Hperfect. reflexivity.
Qed.

Lemma game_loop_continue (remaining i : nat) (guessedSet : list Color)
    s guess s' :
  readAndDisplayCards (indet i) guessedSet numSlots s = Some (guess, s') ->
  ~ perfect guess correctSet numSlots ->
  game_loop (S remaining) i indet correctSet guessedSet numSlots s
  = match game_loop remaining (S i) indet correctSet guess numSlots s' with
    | Some (run, s'') =>
        Some (mkRun (outcome run) (guess :: attempts run), s'')
    | None => None
    end.
Proof.
  intros Hread Hwrong. rewrite perfect_iff in Hwrong.
  cbn [game_loop]. unfold bind. rewrite Hread.
  destruct (Z.eqb_spec
              (numWrongGuesses (removeWrongGuesses guess correctSet numSlots))
              0) as [E|_]; [contradiction|].
  destruct (game_loop remaining (S i) indet correctSet guess numSlots s')
    as [[run s'']|]; reflexivity.
Qed.

(** In a finished run a guess that scores every slot right is the last one
    read, and the run is won. *)
Lemma game_loop_perfect_last (remaining : nat) :
  forall (i : nat) (guessedSet : list Color) s run s',
    game_loop remaining i indet correctSet guessedSet numSlots s
    = Some (run, s') ->
    forall (k : nat) (guess : list Color),
      attempts run !! k = Some guess ->
      perfect guess correctSet numSlots ->
      outcome run = true /\ length (attempts run) = S k.
Proof.
  induction remaining as [|n IH]; intros i guessedSet s run s' Hrun k guess.
  - injection Hrun as <- <-. discriminate.
  - destruct (readAndDisplayCards (indet i) guessedSet numSlots s)
      as [[g0 s0]|] eqn:Hread.
    + destruct (decide (perfect g0 correctSet numSlots)) as [Hp|Hp].
      * rewrite (game_loop_win n i _ _ _ _ Hread Hp) in Hrun.
        injection Hrun as <- <-. cbn [attempts outcome].
        destruct k as [|k]; [tauto|discriminate].
      * rewrite (game_loop_continue n i _ _ _ _ Hread Hp) in Hrun.
        destruct (game_loop n (S i) indet correctSet g0 numSlots s0)
          as [[run0 s1]|] eqn:Hrest; [|discriminate].
        injection Hrun as <- <-. cbn [attempts outcome].
        destruct k as [|k].
        -- intros [= <-] Hperfect. contradiction.
        -- intros Hk Hperfect.
           destruct (IH _ _ _ _ _ Hrest k guess Hk Hperfect) as [Ho Hl].
           split; [exact Ho|]. cbn [length]. now rewrite Hl.
    + cbn [game_loop] in Hrun. unfold bind in Hrun. rewrite Hread in Hrun.
      discriminate.
Qed.

(** A finished run none of whose guesses scores every slot right is lost,
    and has read as many guesses as the loop has iterations. *)
Lemma game_loop_no_perfect (remaining : nat) :
  forall (i : nat) (guessedSet : list Color) s run s',
    game_loop remaining i indet correctSet guessedSet numSlots s
    = Some (run, s') ->
    Forall (fun guess => ~ perfect guess correctSet numSlots) (attempts run) ->
    outcome run = false /\ length (attempts run) = remaining.
Proof.
  induction remaining as [|n IH]; intros i guessedSet s run s' Hrun Hall.
  - injection Hrun as <- <-. split; reflexivity.
  - destruct (readAndDisplayCards (indet i) guessedSet numSlots s)
      as [[g0 s0]|] eqn:Hread.
    + destruct (decide (perfect g0 correctSet numSlots)) as [Hp|Hp].
      * rewrite (game_loop_win n i _ _ _ _ Hread Hp) in Hrun.
        injection Hrun as <- <-. cbn [attempts] in Hall.
        apply Forall_cons in Hall as [Hwrong _]. contradiction.
      * rewrite (game_loop_continue n i _ _ _ _ Hread Hp) in Hrun.
        destruct (game_loop n (S i) indet correctSet g0 numSlots s0)
          as [[run0 s1]|] eqn:Hrest; [|discriminate].
        injection Hrun as <- <-. cbn [attempts outcome] in *.
        apply Forall_cons in Hall as [_ Hall].
        destruct (IH _ _ _ _ _ Hrest Hall) as [Ho Hl].
        split; [exact Ho|]. cbn [length]. now rewrite Hl.
    + cbn [game_loop] in Hrun. unfold bind in Hrun. rewrite Hread in Hrun.
      discriminate.
Qed.

End AttemptLoop.

Lemma game_unfold `{H : Host} (rng entropy : Z) (indet : nat -> nat -> Color)
    (level : Z) :
  game rng entropy indet level
  = game_loop (Z.to_nat (level + 2)) 0 indet (target_of rng entropy level)
      (replicate (Z.to_nat (level + 2)) none) (level + 2).
Proof. reflexivity. Qed.

Lemma target_of_length `{H : Host} (rng entropy level : Z) :
  length (target_of rng entropy level) = Z.to_nat (level + 2).
Proof. apply getCorrectSet_length, length_replicate. Qed.

(** C5. In a finished run of [game], at any level, a guess that scores every
    slot right is the last guess read and the run is won; at any iteration of
    the loop, with whatever budget left, a guess that scores every slot right
    makes the loop return a win at once, the sensor script being left as the
    reading of that guess left it; at level 1 (three slots, three attempts) a
    first guess equal to the target gives a win with that one guess read. *)
Theorem game_stops_at_perfect_score `{H : Host} (rng entropy : Z)
    (indet : nat -> nat -> Color) (level : Z) (s : list RawReading) :
  (forall run s',
      game rng entropy indet level s = Some (run, s') ->
      forall (k : nat) (guess : list Color),
        attempts run !! k = Some guess ->
        perfect guess (target_of rng entropy level) (level + 2) ->
        outcome run = true /\ length (attempts run) = S k) /\
  (forall (remaining i : nat) (guessedSet : list Color) s0 guess s1,
      readAndDisplayCards (indet i) guessedSet (level + 2) s0
      = Some (guess, s1) ->
      perfect guess (target_of rng entropy level) (level + 2) ->
      game_loop (S remaining) i indet (target_of rng entropy level)
        guessedSet (level + 2) s0
      = Some (mkRun true [guess], s1)) /\
  (forall guess s1,
      readAndDisplayCards (indet 0%nat) (replicate 3 none) 3 s
      = Some (guess, s1) ->
      guess = target_of rng entropy 1 ->
      game rng entropy indet 1 s = Some (mkRun true [guess], s1)).
Proof.
  split; [|split].
  - intros run s' Hrun k guess Hk Hperfect. rewrite game_unfold in Hrun.
    exact (game_loop_perfect_last indet _ _ _ _ _ _ _ _ Hrun k guess Hk
             Hperfect).
  - intros remaining i guessedSet s0 guess s1 Hread Hperfect.
    exact (game_loop_win indet _ _ remaining i _ _ _ _ Hread Hperfect).
  - intros guess s1 Hread ->. rewrite game_unfold.
    change (Z.to_nat (1 + 2)) with 3%nat. change (1 + 2) with 3.
    apply (game_loop_win indet _ _ 2 0 _ _ _ _ Hread).
    apply perfect_self. apply (target_of_length rng entropy 1).
Qed.

Lemma game_stops_at_perfect_score_witness :
  game (H := host16) 0 2 (fun _ _ => none) 1
    [red_card; green_card; blue_card; red_card]
  = Some (mkRun true [[red; green; blue]], [red_card]).
Proof.
  apply (proj2 (proj2 (game_stops_at_perfect_score (H := host16) 0 2
                         (fun _ _ => none) 1
                         [red_card; green_card; blue_card; red_card]))
           [red; green; blue] [red_card]).
  - vm_compute. reflexivity.
  - vm_compute. reflexivity.
Defined.

(** C6. At level 1 (a target of three symbols, three attempts): when the
    three guesses are read and none of them scores three right, [game]
    returns false (the player loses) having read exactly these three
    guesses, the sensor script being left as the third reading left it; and
    every finished run without a guess that scores three right is lost after
    exactly three guesses. *)
Theorem game_lost_after_three_attempts `{H : Host} (rng entropy : Z)
    (indet : nat -> nat -> Color) (s0 : list RawReading) :
  (forall g1 s1 g2 s2 g3 s3,
      readAndDisplayCards (indet 0%nat) (replicate 3 none) 3 s0
      = Some (g1, s1) ->
      readAndDisplayCards (indet 1%nat) g1 3 s1 = Some (g2, s2) ->
      readAndDisplayCards (indet 2%nat) g2 3 s2 = Some (g3, s3) ->
      ~ perfect g1 (target_of rng entropy 1) 3 ->
      ~ perfect g2 (target_of rng entropy 1) 3 ->
      ~ perfect g3 (target_of rng entropy 1) 3 ->
      game rng entropy indet 1 s0 = Some (mkRun false [g1; g2; g3], s3)) /\
  (forall run s',
      game rng entropy indet 1 s0 = Some (run, s') ->
      Forall (fun guess => ~ perfect guess (target_of rng entropy 1) 3)
        (attempts run) ->
      outcome run = false /\ length (attempts run) = 3%nat).
Proof.
  rewrite game_unfold.
  change (Z.to_nat (1 + 2)) with 3%nat. change (1 + 2) with 3.
  split.
  - intros g1 s1 g2 s2 g3 s3 Hread1 Hread2 Hread3 Hw1 Hw2 Hw3.
    rewrite (game_loop_continue indet _ _ 2 0 _ _ _ _ Hread1 Hw1).
    rewrite (game_loop_continue indet _ _ 1 1 _ _ _ _ Hread2 Hw2).
    rewrite (game_loop_continue indet _ _ 0 2 _ _ _ _ Hread3 Hw3).
    reflexivity.
  - intros run s' Hrun Hall.
    exact (game_loop_no_perfect indet _ _ 3 _ _ _ _ _ Hrun Hall).
Qed.

Lemma game_lost_after_three_attempts_witness :
  game (H := host16) 0 2 (fun _ _ => none) 1
    [blue_card; green_card; blue_card; red_card; green_card; red_card;
     green_card; red_card; green_card; blue_card]
  = Some (mkRun false
            [[blue; green; blue]; [red; green; red]; [green; red; green]],
          [blue_card]).
Proof.
  apply (proj1 (game_lost_after_three_attempts (H := host16) 0 2
                  (fun _ _ => none)
                  [blue_card; green_card; blue_card; red_card; green_card;
                   red_card; green_card; red_card; green_card; blue_card])
           [blue; green; blue]
           [red_card; green_card; red_card; green_card; red_card;
            green_card; blue_card]
           [red; green; red]
           [green_card; red_card; green_card; blue_card]
           [green; red; green] [blue_card]);
    try (vm_compute; reflexivity);
    unfold perfect; vm_compute; discriminate.
Defined.

(** ** The level prompt *)

Lemma startScreen_poll_colour `{H : Host} (remaining : nat) (color : Color)
    (counter : Z) s :
  color <> none ->
  startScreen_poll remaining color counter s = Some ((color, counter), s).
Proof.
  intros Hc. destruct remaining; [reflexivity|].
  cbn [startScreen_poll]. now rewrite (bool_decide_eq_false_2 _ Hc).
Qed.

(** A polling loop entered with no colour either meets the first card of the
    script, or reads [remaining] samples none of which is a card, or runs
    out of script. *)
Lemma startScreen_poll_none `{H : Host} (remaining : nat) :
  forall (counter : Z) s,
    match startScreen_poll remaining none counter s with
    | Some ((color, _), s') =>
        (color <> none /\ first_card s = Some (color, s')) \/
        (color = none /\ first_card s = first_card s' /\
         length s = (remaining + length s')%nat)
    | None => first_card s = None
    end.
Proof.
  induction remaining as [|n IH]; intros counter s.
  - right. auto.
  - cbn [startScreen_poll]. rewrite bool_decide_eq_true_2 by reflexivity.
    unfold bind, getColor. destruct s as [|x s]; [reflexivity|].
    cbn [first_card]. destruct (decide (classifySample x = none)) as [E|E].
    + rewrite (bool_decide_eq_true_2 _ E), E.
      specialize (IH (counter + 1) s).
      destruct (startScreen_poll n none (counter + 1) s)
        as [[[color k] s']|]; [|exact IH].
      destruct IH as [IH|(Hc & Hf & Hl)]; [left; exact IH|right].
      split; [exact Hc|]. split; [exact Hf|]. cbn [length]. lia.
    + rewrite (bool_decide_eq_false_2 _ E).
      rewrite (startScreen_poll_colour _ _ _ _ E). left. auto.
Qed.

(** The loop of [startScreen] returns the first card of the script. *)
Lemma startScreen_loop_first `{H : Host} (fuel : nat) :
  forall s,
    (length s < fuel)%nat ->
    startScreen_loop fuel none false s = first_card s.
Proof.
  induction fuel as [|f IH]; intros s Hfuel; [lia|].
  cbn [startScreen_loop negb]. unfold bind.
  change (Z.to_nat (10 - 0)) with 10%nat.
  pose proof (startScreen_poll_none 10 0 s) as Hfirst.
  destruct (startScreen_poll 10 none 0 s) as [[[c1 k1] s1]|];
    [|now rewrite Hfirst].
  destruct Hfirst as [[Hc1 Hf1]|(-> & Hf1 & Hl1)].
  - rewrite (bool_decide_eq_true_2 _ Hc1).
    rewrite (startScreen_poll_colour _ _ _ _ Hc1).
    rewrite (bool_decide_eq_true_2 _ Hc1).
    destruct f as [|f].
    + destruct s; [discriminate Hf1|simpl in Hfuel; lia].
    + now rewrite Hf1.
  - rewrite (bool_decide_eq_false_2 (none <> none)) by tauto.
    pose proof (startScreen_poll_none (Z.to_nat (90 - k1)) k1 s1) as Hsecond.
    destruct (startScreen_poll (Z.to_nat (90 - k1)) none k1 s1)
      as [[[c2 k2] s2]|]; [|now rewrite Hf1, Hsecond].
    destruct Hsecond as [[Hc2 Hf2]|(-> & Hf2 & Hl2)].
    + rewrite (bool_decide_eq_true_2 _ Hc2).
      destruct f as [|f]; [lia|]. now rewrite Hf1, Hf2.
    + rewrite (bool_decide_eq_false_2 (none <> none)) by tauto.
      rewrite Hf1, Hf2. apply IH. lia.
Qed.

Lemma first_card_skip `{H : Host} (pre : list RawReading) :
  forall x rest,
    Forall (fun y => classifySample y = none) pre ->
    classifySample x <> none ->
    first_card (pre ++ x :: rest) = Some (classifySample x, rest).
Proof.
  induction pre as [|y pre IH]; intros x rest Hpre Hx.
  - cbn [app first_card]. now rewrite (bool_decide_eq_false_2 _ Hx).
  - apply Forall_cons in Hpre as [Hy Hpre]. cbn [app first_card].
    rewrite (bool_decide_eq_true_2 _ Hy). now apply IH.
Qed.

Lemma first_card_silent `{H : Host} (s : list RawReading) :
  Forall (fun y => classifySample y = none) s -> first_card s = None.
Proof.
  induction s as [|y s IH]; intros Hs; [reflexivity|].
  apply Forall_cons in Hs as [Hy Hs]. cbn [first_card].
  rewrite (bool_decide_eq_true_2 _ Hy). now apply IH.
Qed.

(** C3. [startScreen] maps the first card shown at the prompt, the samples
    before it showing no card, as follows: the colour of value 2 (green) to
    level 1, the colour of value 3 (blue) to level 2, the colour of value 1
    (red) to level 3. For [none] the final tests yield no level, and as long
    as the sensor shows no card [startScreen] does not return: no level is
    produced by default. *)
Theorem startScreen_levels `{H : Host} :
  (startScreen_level (Color_of_int 2) = Some 1 /\
   startScreen_level (Color_of_int 3) = Some 2 /\
   startScreen_level (Color_of_int 1) = Some 3 /\
   startScreen_level none = None) /\
  (forall (pre : list RawReading) (x : RawReading) (rest : list RawReading)
          (level : Z),
      Forall (fun y => classifySample y = none) pre ->
      classifySample x <> none ->
      startScreen_level (classifySample x) = Some level ->
      startScreen (pre ++ x :: rest) = Some (level, rest)) /\
  (forall (pre : list RawReading) (x : RawReading) (rest : list RawReading),
      Forall (fun y => classifySample y = none) pre ->
      classifySample x <> none ->
      exists level,
        startScreen_level (classifySample x) = Some level /\
        startScreen (pre ++ x :: rest) = Some (level, rest) /\
        1 <= level <= 3) /\
  (forall s : list RawReading,
      Forall (fun y => classifySample y = none) s -> startScreen s = None).
Proof.
  split; [repeat split|].
  assert (Hfirst : forall pre x rest level,
             Forall (fun y => classifySample y = none) pre ->
             classifySample x <> none ->
             startScreen_level (classifySample x) = Some level ->
             startScreen (pre ++ x :: rest) = Some (level, rest)).
  { intros pre x rest level Hpre Hx Hlevel. unfold startScreen.
    rewrite startScreen_loop_first by lia.
    rewrite (first_card_skip pre x rest Hpre Hx), Hlevel. reflexivity. }
  split; [exact Hfirst|]. split.
  - intros pre x rest Hpre Hx.
    destruct (classifySample x) eqn:E; [contradiction| | |].
    + exists 3. split; [reflexivity|]. split; [|lia].
      apply Hfirst; [exact Hpre| |]; now rewrite E.
    + exists 1. split; [reflexivity|]. split; [|lia].
      apply Hfirst; [exact Hpre| |]; now rewrite E.
    + exists 2. split; [reflexivity|]. split; [|lia].
      apply Hfirst; [exact Hpre| |]; now rewrite E.
  - intros s Hs. unfold startScreen.
    rewrite startScreen_loop_first by lia.
    now rewrite (first_card_silent s Hs).
Qed.

Lemma startScreen_levels_witness :
  startScreen (H := host16) (replicate 95 no_card ++ green_card :: [red_card])
  = Some (1, [red_card]).
Proof.
  apply (proj1 (proj2 (startScreen_levels (H := host16)))
           (replicate 95 no_card) green_card [red_card] 1).
  - apply Forall_replicate. vm_compute. reflexivity.
  - vm_compute. discriminate.
  - vm_compute. reflexivity.
Defined.

(** * Further properties *)

(** ** Reading one card *)

Lemma displayNextCard_test (prev color : Color) :
  color = prev \/ color = none ->
  bool_decide (color = prev) || bool_decide (color = none) = true.
Proof.
  intros [E|E]; rewrite (bool_decide_eq_true_2 _ E);
    [reflexivity|apply orb_true_r].
Qed.

(** [displayNextCard] passes over a sample that shows no card or the card
    [prev]. *)
Lemma displayNextCard_loop_found `{H : Host} (prev : Color)
    (s : list RawReading) :
  forall color c s',
    color = prev \/ color = none ->
    displayNextCard_loop prev color s = Some (c, s') ->
    exists pre x,
      s = pre ++ x :: s' /\
      Forall (fun y => classifySample y = prev \/ classifySample y = none)
        pre /\
      classifySample x = c /\ c <> prev /\ c <> none.
Proof.
  induction s as [|x s IH]; intros color c s' Hrej.
  - cbn [displayNextCard_loop].
    rewrite (displayNextCard_test _ _ Hrej). discriminate.
  - cbn [displayNextCard_loop].
    rewrite (displayNextCard_test _ _ Hrej).
    destruct (decide (classifySample x = prev \/ classifySample x = none))
      as [Hx|Hx].
    + intros Hloop. destruct (IH _ _ _ Hx Hloop) as (pre & y & -> & Hpre & Hy).
      exists (x :: pre), y. split; [reflexivity|]. split; [|exact Hy].
      constructor; assumption.
    + destruct s as [|z s]; cbn [displayNextCard_loop];
        rewrite (bool_decide_eq_false_2 (classifySample x = prev)),
          (bool_decide_eq_false_2 (classifySample x = none)) by tauto;
        intros [= <- <-]; exists [], x; repeat split;
          try constructor; tauto.
Qed.

Lemma displayNextCard_loop_skips `{H : Host} (prev : Color)
    (pre : list RawReading) :
  forall color x rest,
    color = prev \/ color = none ->
    Forall (fun y => classifySample y = prev \/ classifySample y = none) pre ->
    classifySample x <> prev -> classifySample x <> none ->
    displayNextCard_loop prev color (pre ++ x :: rest)
    = Some (classifySample x, rest).
Proof.
  induction pre as [|y pre IH]; intros color x rest Hrej Hpre Hx1 Hx2.
  - cbn [app displayNextCard_loop].
    rewrite (displayNextCard_test _ _ Hrej).
    destruct rest; cbn [displayNextCard_loop];
      now rewrite (bool_decide_eq_false_2 _ Hx1),
        (bool_decide_eq_false_2 _ Hx2).
  - apply Forall_cons in Hpre as [Hy Hpre].
    cbn [app displayNextCard_loop].
    rewrite (displayNextCard_test _ _ Hrej).
    now apply IH.
Qed.

Lemma displayNextCard_loop_waits `{H : Host} (prev : Color)
    (s : list RawReading) :
  forall color,
    color = prev \/ color = none ->
    Forall (fun y => classifySample y = prev \/ classifySample y = none) s ->
    displayNextCard_loop prev color s = None.
Proof.
  induction s as [|y s IH]; intros color Hrej Hs;
    cbn [displayNextCard_loop]; rewrite (displayNextCard_test _ _ Hrej);
    [reflexivity|].
  apply Forall_cons in Hs as [Hy Hs]. now apply IH.
Qed.

(** X1. [displayNextCard] returns the first sample of the script that is a
    card other than [prev], having read and passed over every sample before
    it (each no card, or the card [prev]); the script left is what follows
    that sample. If no sample of the script is such a card, it does not
    return. *)
Theorem displayNextCard_first_change `{H : Host} (prev : Color)
    (s : list RawReading) :
  (forall c s',
      displayNextCard prev s = Some (c, s') <->
      exists pre x,
        s = pre ++ x :: s' /\
        Forall (fun y => classifySample y = prev \/ classifySample y = none)
          pre /\
        classifySample x = c /\ c <> prev /\ c <> none) /\
  (Forall (fun y => classifySample y = prev \/ classifySample y = none) s ->
   displayNextCard prev s = None).
Proof.
  unfold displayNextCard. split.
  - intros c s'. split.
    + apply displayNextCard_loop_found. now left.
    + intros (pre & x & -> & Hpre & <- & Hx1 & Hx2).
      apply displayNextCard_loop_skips; auto.
  - apply displayNextCard_loop_waits. now left.
Qed.

Lemma displayNextCard_first_change_witness :
  displayNextCard (H := host16) green
    [no_card; green_card; no_card; blue_card; red_card]
  = Some (blue, [red_card]).
Proof.
  apply (proj1 (displayNextCard_first_change (H := host16) green
                  [no_card; green_card; no_card; blue_card; red_card])).
  exists [no_card; green_card; no_card], blue_card.
  split; [reflexivity|]. split.
  - repeat (apply Forall_cons; split; [vm_compute; auto|]).
    apply Forall_nil_2.
  - vm_compute. repeat split; discriminate.
Defined.

(** ** Reading a guess *)

Lemma displayNextCard_consumes `{H : Host} (prev c : Color)
    (s s' : list RawReading) :
  displayNextCard prev s = Some (c, s') -> (length s' < length s)%nat.
Proof.
  intros Hread.
  apply displayNextCard_loop_found in Hread as (pre & x & -> & _);
    [|now left].
  rewrite length_app. cbn [length]. lia.
Qed.

Lemma collect_independent `{H : Host} (indet : nat -> Color)
    (remaining : nat) :
  forall (pre old1 old2 : list Color) s,
    length old1 = remaining -> length old2 = remaining ->
    readAndDisplayCards_loop remaining (length pre) indet (pre ++ old1) s
    = readAndDisplayCards_loop remaining (length pre) indet (pre ++ old2) s.
Proof.
  induction remaining as [|n IH]; intros pre old1 old2 s Hlen1 Hlen2.
  - destruct old1, old2; try discriminate. reflexivity.
  - destruct old1 as [|o1 old1], old2 as [|o2 old2]; try discriminate.
    injection Hlen1 as Hlen1. injection Hlen2 as Hlen2.
    cbn [readAndDisplayCards_loop]. unfold bind.
    destruct (displayNextCard (indet (length pre)) s) as [[c s0]|];
      [|reflexivity].
    rewrite !insert_app_r_alt, !Nat.sub_diag by lia.
    change (<[0%nat := c]> (o1 :: old1)) with (c :: old1).
    change (<[0%nat := c]> (o2 :: old2)) with (c :: old2).
    rewrite (cons_middle c pre old1), (cons_middle c pre old2), !app_assoc.
    replace (S (length pre)) with (length (pre ++ [c]))
      by (rewrite length_app; simpl; lia).
    now apply IH.
Qed.

Lemma collect_consumes `{H : Host} (indet : nat -> Color) (remaining : nat) :
  forall (i : nat) (guessedSet : list Color) s guess s',
    readAndDisplayCards_loop remaining i indet guessedSet s
    = Some (guess, s') ->
    (length s' + remaining <= length s)%nat.
Proof.
  induction remaining as [|n IH]; intros i guessedSet s guess s'.
  - intros [= <- <-]. lia.
  - cbn [readAndDisplayCards_loop]. unfold bind.
    destruct (displayNextCard (indet i) s) as [[c s0]|] eqn:E;
      [|discriminate].
    intros Hrest. apply IH in Hrest. apply displayNextCard_consumes in E.
    lia.
Qed.

Lemma collect_colours `{H : Host} (indet : nat -> Color)
    (guessedSet : list Color) (numSlots : Z) s guess s' :
  length guessedSet = Z.to_nat numSlots ->
  readAndDisplayCards indet guessedSet numSlots s = Some (guess, s') ->
  length guess = Z.to_nat numSlots /\ Forall (fun c => c <> none) guess.
Proof.
  intros Hlen Hread.
  destruct (collect_cells _ _ _ _ _ _ _ Hread) as (Hl & _ & Hcells).
  split; [congruence|].
  apply Forall_lookup. intros j c Hj.
  apply (Hcells j c); [|exact Hj].
  apply lookup_lt_Some in Hj. lia.
Qed.

(** X2. A guess that has been read fills the whole array: it has [numSlots]
    cells, every one a colour (never [none]), and it does not depend on what
    the array held before the call. *)
Theorem readAndDisplayCards_fills `{H : Host} (indet : nat -> Color)
    (guessedSet1 guessedSet2 : list Color) (numSlots : Z)
    (s : list RawReading) :
  length guessedSet1 = Z.to_nat numSlots ->
  length guessedSet2 = Z.to_nat numSlots ->
  readAndDisplayCards indet guessedSet1 numSlots s
  = readAndDisplayCards indet guessedSet2 numSlots s /\
  (forall guess s',
      readAndDisplayCards indet guessedSet1 numSlots s = Some (guess, s') ->
      length guess = Z.to_nat numSlots /\
      Forall (fun c => c <> none) guess).
Proof.
  intros Hlen1 Hlen2. split.
  - exact (collect_independent indet _ [] _ _ s Hlen1 Hlen2).
  - intros guess s'. now apply collect_colours.
Qed.

Lemma readAndDisplayCards_fills_witness :
  readAndDisplayCards (H := host16) (fun _ => none) [blue; blue; none] 3
    [no_card; red_card; green_card; no_card; red_card; blue_card]
  = readAndDisplayCards (H := host16) (fun _ => none) [none; red; green] 3
      [no_card; red_card; green_card; no_card; red_card; blue_card].
Proof.
  apply (readAndDisplayCards_fills (H := host16) (fun _ => none)
           [blue; blue; none] [none; red; green] 3); reflexivity.
Defined.

(** X3. Every slot of a guess takes at least one fresh sample: a guess of
    [numSlots] cards is read from at least [numSlots] samples, so a script
    with fewer samples never completes a guess. *)
Theorem readAndDisplayCards_consumes `{H : Host} (indet : nat -> Color)
    (guessedSet : list Color) (numSlots : Z) (s : list RawReading) :
  (forall guess s',
      readAndDisplayCards indet guessedSet numSlots s = Some (guess, s') ->
      (length s' + Z.to_nat numSlots <= length s)%nat) /\
  ((length s < Z.to_nat numSlots)%nat ->
   readAndDisplayCards indet guessedSet numSlots s = None).
Proof.
  assert (Hc : forall guess s',
             readAndDisplayCards indet guessedSet numSlots s
             = Some (guess, s') ->
             (length s' + Z.to_nat numSlots <= length s)%nat)
    by (intros guess s' Hread; exact (collect_consumes _ _ _ _ _ _ _ Hread)).
  split; [exact Hc|].
  intros Hshort.
  destruct (readAndDisplayCards indet guessedSet numSlots s)
    as [[guess s']|] eqn:E; [|reflexivity].
  specialize (Hc guess s' eq_refl). lia.
Qed.

Lemma readAndDisplayCards_consumes_witness :
  readAndDisplayCards (H := host16) (fun _ => none) [none; none; none] 3
    [red_card; green_card] = None.
Proof.
  apply (proj2 (readAndDisplayCards_consumes (H := host16) (fun _ => none)
                  [none; none; none] 3 [red_card; green_card])).
  simpl. lia.
Defined.

(** X4. When the uninitialised [prev] of the loop body holds, at each slot
    after the first, the card stored in the slot before it, the guess read
    has no two neighbouring cards equal. *)
Theorem readAndDisplayCards_debounced_if_retained `{H : Host}
    (indet : nat -> Color) (guessedSet : list Color) (numSlots : Z)
    (s : list RawReading) (guess : list Color) (s' : list RawReading) :
  readAndDisplayCards indet guessedSet numSlots s = Some (guess, s') ->
  length guessedSet = Z.to_nat numSlots ->
  (forall (j : nat) (c : Color), guess !! j = Some c -> indet (S j) = c) ->
  no_adjacent_equal guess.
Proof.
  intros Hread Hlen Hretained i x y Hx Hy.
  destruct (collect_cells _ _ _ _ _ _ _ Hread) as (Hl & _ & Hcells).
  assert (Hin : (0 <= S i < 0 + Z.to_nat numSlots)%nat)
    by (apply lookup_lt_Some in Hy; lia).
  destruct (Hcells (S i) y Hin Hy) as [_ Hne].
  rewrite (Hretained i x Hx) in Hne. congruence.
Qed.

Lemma readAndDisplayCards_debounced_if_retained_witness :
  readAndDisplayCards (H := host16)
    (fun j => match j with
              | O => none
              | S O => green
              | _ => blue
              end)
    [none; none] 2 [green_card; green_card; blue_card]
  = Some ([green; blue], []) /\
  no_adjacent_equal [green; blue].
Proof.
  split; [vm_compute; reflexivity|].
  apply (readAndDisplayCards_debounced_if_retained (H := host16)
           (fun j => match j with
                     | O => none
                     | S O => green
                     | _ => blue
                     end)
           [none; none] 2 [green_card; green_card; blue_card]
           [green; blue] []).
  - vm_compute. reflexivity.
  - reflexivity.
  - intros [|[|j]] c; vm_compute; intros Hc; congruence.
Defined.

(** ** The hidden set, level by level *)

Lemma drawn_range `{H : Host} (st numSlots : Z) :
  0 <= numSlots ->
  0 <= Z.rem (rand_out st) (3 ^ numSlots) < 3 ^ numSlots.
Proof.
  intros Hslots. apply Z.rem_bound_pos.
  - apply rand_out_range.
  - apply Z.pow_pos_nonneg; lia.
Qed.

(** X5. With three slots (level 1) the hidden set is the base-3
    decomposition of the number drawn, a number in [0, 27): the loop divides
    by the number of slots, which is 3 there. *)
Theorem getCorrectSet_three_slots_base3 `{H : Host} (rng entropy : Z)
    (correctSet : list Color) :
  length correctSet = 3%nat ->
  exists num,
    num = Z.rem (rand_out (rand_next (entropy mod 2 ^ int_bits))) 27 /\
    0 <= num < 27 /\
    fst (getCorrectSet rng entropy correctSet 3)
    = SequenceGenerator_spec 3 num (-1).
Proof.
  intros Hlen. eexists. split; [reflexivity|].
  pose proof (drawn_range (rand_next (entropy mod 2 ^ int_bits)) 3
                ltac:(lia)) as Hnum.
  change (3 ^ 3) with 27 in Hnum. split; [exact Hnum|].
  rewrite (getCorrectSet_emitted _ _ _ 3 Hlen). cbn [fst].
  change (Z.to_nat 3) with 3%nat. change (3 ^ 3) with 27.
  apply emitted_base3. lia.
Qed.

Lemma getCorrectSet_three_slots_base3_witness :
  exists num,
    num = Z.rem (rand_out (Host := host16)
                   (rand_next (Host := host16)
                      (5 mod 2 ^ int_bits (Host := host16)))) 27 /\
    0 <= num < 27 /\
    fst (getCorrectSet (H := host16) 0 5 [none; none; none] 3)
    = SequenceGenerator_spec 3 num (-1).
Proof.
  apply (getCorrectSet_three_slots_base3 (H := host16) 0 5
           [none; none; none]).
  reflexivity.
Defined.

Lemma next_digit_of_zero (prev : Z) :
  next_digit 0 prev = 1 \/ next_digit 0 prev = 2.
Proof.
  unfold next_digit.
  change (Color_to_int (Color_of_int (Z.rem 0 3 + 1))) with 1.
  destruct (1 =? prev); simpl; auto.
Qed.

Lemma quot_five_four_times (num : Z) :
  0 <= num < 243 -> Z.quot (Z.quot (Z.quot (Z.quot num 5) 5) 5) 5 = 0.
Proof.
  intros Hnum.
  assert (H1 : 0 <= Z.quot num 5 < 49).
  { rewrite Z.quot_div_nonneg by lia. split.
    - apply Z.div_pos; lia.
    - apply Z.div_lt_upper_bound; lia. }
  assert (H2 : 0 <= Z.quot (Z.quot num 5) 5 < 10).
  { rewrite (Z.quot_div_nonneg (Z.quot num 5)) by lia. split.
    - apply Z.div_pos; lia.
    - apply Z.div_lt_upper_bound; lia. }
  assert (H3 : 0 <= Z.quot (Z.quot (Z.quot num 5) 5) 5 < 2).
  { rewrite (Z.quot_div_nonneg (Z.quot (Z.quot num 5) 5)) by lia. split.
    - apply Z.div_pos; lia.
    - apply Z.div_lt_upper_bound; lia. }
  apply Z.quot_small. lia.
Qed.

(** X6. With five slots (level 3) the last symbol of the hidden set is red
    or green, never blue: the loop divides by 5, so the number drawn, below
    243, is 0 when the fifth digit is taken. *)
Theorem getCorrectSet_five_slots_last `{H : Host} (rng entropy : Z)
    (correctSet : list Color) :
  length correctSet = 5%nat ->
  exists c,
    fst (getCorrectSet rng entropy correctSet 5) !! 4%nat = Some c /\
    (c = red \/ c = green).
Proof.
  intros Hlen. rewrite (getCorrectSet_emitted _ _ _ 5 Hlen). cbn [fst].
  change (Z.to_nat 5) with 5%nat.
  pose proof (drawn_range (rand_next (entropy mod 2 ^ int_bits)) 5
                ltac:(lia)) as Hnum.
  change (3 ^ 5) with 243 in *.
  set (num := Z.rem (rand_out (rand_next (entropy mod 2 ^ int_bits))) 243)
    in *.
  cbn [emitted]. cbv zeta. cbn [lookup list_lookup].
  rewrite (quot_five_four_times num Hnum).
  eexists. split; [reflexivity|].
  match goal with
  | |- Color_of_int (next_digit 0 ?p) = _ \/ _ =>
      destruct (next_digit_of_zero p) as [-> | ->]
  end; simpl; auto.
Qed.

Lemma getCorrectSet_five_slots_last_witness :
  exists c,
    fst (getCorrectSet (H := host16) 0 700 (replicate 5 none) 5) !! 4%nat
    = Some c /\
    (c = red \/ c = green).
Proof.
  apply (getCorrectSet_five_slots_last (H := host16) 0 700
           (replicate 5 none)).
  reflexivity.
Defined.

Ltac drawn num :=
  exists num; split; [lia|];
  match goal with
  | Hloop : forall n, getCorrectSet_loop _ _ _ _ n _ = _ |- _ =>
      rewrite Hloop
  end;
  vm_compute; reflexivity.

(** X7. With three slots every sequence of three colours without equal
    neighbours is the hidden set for some number drawn in [0, 27). *)
Theorem getCorrectSet_three_slots_complete (correctSet target : list Color) :
  length correctSet = 3%nat ->
  length target = 3%nat ->
  Forall (fun c => c <> none) target ->
  no_adjacent_equal target ->
  exists num,
    0 <= num < 27 /\
    getCorrectSet_loop 3 correctSet 3 0 num (-1) = target.
Proof.
  intros Hlen Htarget Hcol Hadj.
  destruct target as [|a [|b [|c [|d target]]]]; try discriminate.
  apply Forall_cons in Hcol as [Ha Hcol].
  apply Forall_cons in Hcol as [Hb Hcol].
  apply Forall_cons in Hcol as [Hc _].
  pose proof (Hadj 0%nat a b eq_refl eq_refl) as Hab.
  pose proof (Hadj 1%nat b c eq_refl eq_refl) as Hbc.
  assert (Hloop : forall num,
             getCorrectSet_loop 3 correctSet 3 0 num (-1)
             = emitted 3 3 num (-1))
    by (intros num;
        exact (getCorrectSet_loop_emitted 3 [] correctSet 3 num (-1) Hlen)).
  destruct a, b, c; try contradiction;
    first [ drawn 0 | drawn 1 | drawn 2 | drawn 3 | drawn 4 | drawn 5
          | drawn 6 | drawn 7 | drawn 8 | drawn 9 | drawn 10 | drawn 11
          | drawn 12 | drawn 13 | drawn 14 | drawn 15 | drawn 16 | drawn 17
          | drawn 18 | drawn 19 | drawn 20 | drawn 21 | drawn 22 | drawn 23
          | drawn 24 | drawn 25 | drawn 26 ].
Qed.

Lemma getCorrectSet_three_slots_complete_witness :
  exists num,
    0 <= num < 27 /\
    getCorrectSet_loop 3 [none; none; none] 3 0 num (-1)
    = [blue; red; blue].
Proof.
  apply (getCorrectSet_three_slots_complete [none; none; none]
           [blue; red; blue]); try reflexivity.
  - repeat (apply Forall_cons; split; [discriminate|]). apply Forall_nil_2.
  - intros [|[|i]] x y; vm_compute; intros Hx Hy; congruence.
Defined.

(** ** The score *)

Lemma disagreements_nonneg (guess : list Color) :
  forall target, 0 <= disagreements guess target.
Proof.
  induction guess as [|g guess IH]; intros [|t target];
    cbn [disagreements]; try lia.
  specialize (IH target). destruct (bool_decide (g <> t)); lia.
Qed.

Lemma disagreements_zero (guess : list Color) :
  forall target,
    length guess = length target ->
    (disagreements guess target = 0 <-> guess = target).
Proof.
  induction guess as [|g guess IH]; intros [|t target] Hlen;
    try discriminate; [tauto|].
  injection Hlen as Hlen. specialize (IH target Hlen).
  pose proof (disagreements_nonneg guess target) as Hpos.
  cbn [disagreements]. destruct (decide (g = t)) as [->|E].
  - rewrite (bool_decide_eq_false_2 (t <> t)) by tauto.
    rewrite Z.add_0_l, IH. split; [now intros ->|now intros [= ->]].
  - rewrite (bool_decide_eq_true_2 _ E). split; [lia|congruence].
Qed.

Lemma perfect_equal (guess target : list Color) (numSlots : Z) :
  length guess = Z.to_nat numSlots ->
  length target = Z.to_nat numSlots ->
  (perfect guess target numSlots <-> guess = target).
Proof.
  intros Hg Ht. rewrite perfect_iff, removeWrongGuesses_masked by assumption.
  cbn [numWrongGuesses]. apply disagreements_zero. congruence.
Qed.

(** X8. For a guess and a hidden set of [numSlots] cells,
    [removeWrongGuesses] returns 0, the value on which [game] reports a win,
    exactly when the guess equals the hidden set cell by cell. *)
Theorem removeWrongGuesses_zero_iff_equal (guess target : list Color)
    (numSlots : Z) :
  length guess = Z.to_nat numSlots ->
  length target = Z.to_nat numSlots ->
  (numWrongGuesses (removeWrongGuesses guess target numSlots) = 0
   <-> guess = target).
Proof.
  intros Hg Ht. rewrite <- perfect_iff. now apply perfect_equal.
Qed.

Lemma removeWrongGuesses_zero_iff_equal_witness :
  numWrongGuesses
    (removeWrongGuesses [red; blue; green] [red; blue; red] 3) = 0
  <-> [red; blue; green] = [red; blue; red].
Proof.
  apply (removeWrongGuesses_zero_iff_equal [red; blue; green]
           [red; blue; red] 3); reflexivity.
Defined.

(** X9. For arrays of [numSlots] cells the number of wrong guesses returned
    and the number of right guesses shown both lie between 0 and [numSlots]
    and add up to [numSlots]. *)
Theorem removeWrongGuesses_counts (guess target : list Color)
    (numSlots : Z) :
  length guess = Z.to_nat numSlots ->
  length target = Z.to_nat numSlots ->
  0 <= numSlots ->
  0 <= numWrongGuesses (removeWrongGuesses guess target numSlots) <= numSlots
  /\
  0 <= numRightGuesses (removeWrongGuesses guess target numSlots) <= numSlots
  /\
  numWrongGuesses (removeWrongGuesses guess target numSlots)
  + numRightGuesses (removeWrongGuesses guess target numSlots) = numSlots.
Proof.
  intros Hg Ht Hslots. rewrite removeWrongGuesses_masked by assumption.
  cbn [numWrongGuesses numRightGuesses].
  pose proof (disagreements_nonneg guess target) as Hd.
  assert (Hlen : length guess = length target) by congruence.
  pose proof (agreements_disagreements guess target Hlen) as Hsum.
  assert (Ha : 0 <= agreements guess target).
  { clear. revert target.
    induction guess as [|g guess IH]; intros [|t target];
      cbn [agreements]; try lia.
    specialize (IH target). destruct (bool_decide (g = t)); lia. }
  lia.
Qed.

Lemma removeWrongGuesses_counts_witness :
  0 <= numWrongGuesses
         (removeWrongGuesses [red; blue; green; red] [green; blue; red; green]
            4) <= 4.
Proof.
  apply (removeWrongGuesses_counts [red; blue; green; red]
           [green; blue; red; green] 4); [reflexivity|reflexivity|lia].
Defined.

(** X10. The array [removeWrongGuesses] draws never shows a colour at a slot
    unless both the guess and the hidden set hold that colour there. *)
Theorem removeWrongGuesses_shows_only_hits (guess target : list Color)
    (numSlots : Z) (i : nat) (c : Color) :
  length guess = Z.to_nat numSlots ->
  length target = Z.to_nat numSlots ->
  guessedCorrectlySet (removeWrongGuesses guess target numSlots) !! i
  = Some c ->
  c <> none ->
  guess !! i = Some c /\ target !! i = Some c.
Proof.
  intros Hg Ht. rewrite removeWrongGuesses_masked by assumption.
  cbn [guessedCorrectlySet]. unfold masked.
  intros Hc Hcol. apply lookup_zip_with_Some in Hc as (g & t & -> & Hgi & Hti).
  destruct (decide (g = t)) as [->|E].
  - rewrite (bool_decide_eq_false_2 (t <> t)) by tauto. tauto.
  - rewrite (bool_decide_eq_true_2 _ E) in Hcol. contradiction.
Qed.

Lemma removeWrongGuesses_shows_only_hits_witness :
  [red; blue; green] !! 1%nat = Some blue /\
  [green; blue; red] !! 1%nat = Some blue.
Proof.
  apply (removeWrongGuesses_shows_only_hits [red; blue; green]
           [green; blue; red] 3 1 blue);
    [reflexivity|reflexivity|vm_compute; reflexivity|discriminate].
Defined.

(** ** The play-through *)

Section RunShape.

Context `{H : Host}.
Variable indet : nat -> nat -> Color.
Variable correctSet : list Color.
Variable numSlots : Z.
Hypothesis correctSet_length : length correctSet = Z.to_nat numSlots.

(** What every finished run of the loop of [game] looks like. *)
Lemma game_loop_shape (remaining : nat) :
  forall (i : nat) (guessedSet : list Color) s run s',
    length guessedSet = Z.to_nat numSlots ->
    game_loop remaining i indet correctSet guessedSet numSlots s
    = Some (run, s') ->
    (length (attempts run) <= remaining)%nat /\
    ((0 < remaining)%nat -> (0 < length (attempts run))%nat) /\
    Forall (fun guess => length guess = Z.to_nat numSlots /\
                         Forall (fun c => c <> none) guess) (attempts run) /\
    (outcome run = true <-> last (attempts run) = Some correctSet) /\
    (length s' + Z.to_nat numSlots * length (attempts run) <= length s)%nat.
Proof.
  induction remaining as [|n IH]; intros i guessedSet s run s' Hlen Hrun.
  - injection Hrun as <- <-. cbn [attempts outcome length last].
    repeat split; try lia; try constructor; discriminate.
  - destruct (readAndDisplayCards (indet i) guessedSet numSlots s)
      as [[g0 s0]|] eqn:Hread.
    + destruct (collect_colours _ _ _ _ _ _ Hlen Hread) as [Hl0 Hc0].
      pose proof (collect_consumes _ _ _ _ _ _ _ Hread) as Hs0.
      destruct (decide (perfect g0 correctSet numSlots)) as [Hp|Hp].
      * rewrite (game_loop_win indet _ _ n i _ _ _ _ Hread Hp) in Hrun.
        injection Hrun as <- <-. cbn [attempts outcome length last].
        apply perfect_equal in Hp; [|assumption..]. subst g0.
        repeat split; try lia; auto.
      * rewrite (game_loop_continue indet _ _ n i _ _ _ _ Hread Hp) in Hrun.
        destruct (game_loop n (S i) indet correctSet g0 numSlots s0)
          as [[run0 s1]|] eqn:Hrest; [|discriminate].
        injection Hrun as <- <-. cbn [attempts outcome].
        destruct (IH _ _ _ _ _ Hl0 Hrest) as (Hle & Hpos & Hall & Hout & Hs1).
        split; [cbn [length]; lia|]. split; [cbn [length]; lia|].
        split; [constructor; auto|]. split; [|cbn [length]; lia].
        rewrite Hout, last_cons.
        destruct (last (attempts run0)) as [g1|]; [tauto|].
        split; [discriminate|]. intros [= ->].
        contradiction Hp. now apply perfect_self.
    + cbn [game_loop] in Hrun. unfold bind in Hrun. rewrite Hread in Hrun.
      discriminate.
Qed.

End RunShape.

(** X11. A finished run of [game] at a level of at least -1 has read between
    one and [level + 2] guesses, each of [level + 2] colours; [game] returns
    true exactly when the last guess read equals the hidden set. *)
Theorem game_run_shape `{H : Host} (rng entropy : Z)
    (indet : nat -> nat -> Color) (level : Z) (s : list RawReading)
    (run : GameRun) (s' : list RawReading) :
  game rng entropy indet level s = Some (run, s') ->
  -1 <= level ->
  1 <= Z.of_nat (length (attempts run)) <= level + 2 /\
  Forall (fun guess => Z.of_nat (length guess) = level + 2 /\
                       Forall (fun c => c <> none) guess) (attempts run) /\
  (outcome run = true
   <-> last (attempts run) = Some (target_of rng entropy level)).
Proof.
  intros Hrun Hlevel. rewrite game_unfold in Hrun.
  destruct (game_loop_shape indet _ _ (target_of_length rng entropy level)
              _ _ _ _ _ _ (length_replicate _ _) Hrun)
    as (Hle & Hpos & Hall & Hout & _).
  split; [lia|]. split; [|exact Hout].
  eapply Forall_impl; [exact Hall|]. intros guess [Hl Hc].
  split; [lia|exact Hc].
Qed.

Lemma game_run_shape_witness :
  1 <= Z.of_nat (length [[blue; green; blue]; [red; green; blue]]) <= 1 + 2 /\
  Forall (fun guess => Z.of_nat (length guess) = 1 + 2 /\
                       Forall (fun c => c <> none) guess)
    [[blue; green; blue]; [red; green; blue]] /\
  (true = true
   <-> last [[blue; green; blue]; [red; green; blue]]
       = Some (target_of (H := host16) 0 2 1)).
Proof.
  apply (game_run_shape (H := host16) 0 2 (fun _ _ => none) 1
           [blue_card; green_card; blue_card; red_card; green_card;
            blue_card; red_card]
           (mkRun true [[blue; green; blue]; [red; green; blue]])
           [red_card]).
  - vm_compute. reflexivity.
  - lia.
Defined.

(** X12. Every guess of a run takes at least [level + 2] fresh samples: a
    finished run has read at least [level + 2] samples per guess, and with
    fewer than [level + 2] samples in the script [game] does not return
    (levels of at least -1). *)
Theorem game_needs_samples `{H : Host} (rng entropy : Z)
    (indet : nat -> nat -> Color) (level : Z) (s : list RawReading) :
  -1 <= level ->
  (forall run s',
      game rng entropy indet level s = Some (run, s') ->
      Z.of_nat (length s') + (level + 2) * Z.of_nat (length (attempts run))
      <= Z.of_nat (length s)) /\
  (Z.of_nat (length s) < level + 2 ->
   game rng entropy indet level s = None).
Proof.
  intros Hlevel.
  assert (Hrun : forall run s',
             game rng entropy indet level s = Some (run, s') ->
             Z.of_nat (length s')
             + (level + 2) * Z.of_nat (length (attempts run))
             <= Z.of_nat (length s) /\
             1 <= Z.of_nat (length (attempts run))).
  { intros run s' Hgame. rewrite game_unfold in Hgame.
    destruct (game_loop_shape indet _ _ (target_of_length rng entropy level)
                _ _ _ _ _ _ (length_replicate _ _) Hgame)
      as (_ & Hpos & _ & _ & Hs).
    split; [nia|lia]. }
  split.
  - intros run s' Hgame. apply (Hrun run s' Hgame).
  - intros Hshort.
    destruct (game rng entropy indet level s) as [[run s']|] eqn:Hgame;
      [|reflexivity].
    destruct (Hrun run s' eq_refl) as [Hs Hpos]. nia.
Qed.

Lemma game_needs_samples_witness :
  game (H := host16) 0 2 (fun _ _ => none) 3
    [red_card; green_card; blue_card; red_card] = None.
Proof.
  apply (proj2 (game_needs_samples (H := host16) 0 2 (fun _ _ => none) 3
                  [red_card; green_card; blue_card; red_card]
                  ltac:(lia))).
  simpl. lia.
Defined.

(** ** The slots and the cards on the display *)

Lemma drawSlots_loop_nothing (remaining : nat) :
  forall i numSlots,
    numSlots <> 3 -> numSlots <> 4 -> numSlots <> 5 ->
    drawSlots_loop remaining i numSlots = [].
Proof.
  induction remaining as [|n IH]; intros i numSlots H3 H4 H5;
    [reflexivity|].
  cbn [drawSlots_loop].
  destruct (Z.eqb_spec numSlots 3); [contradiction|].
  destruct (Z.eqb_spec numSlots 4); [contradiction|].
  destruct (Z.eqb_spec numSlots 5); [contradiction|].
  now apply IH.
Qed.

Ltac slot_cases i := destruct i as [|[|[|[|[|i]]]]].

(** X13. For 3, 4 or 5 slots [drawSlots] draws that many frames, each 15
    rows high from row 0 and inside the 32 columns of the panel, and each
    frame starts at least one column after the frame before it ends. *)
Theorem drawSlots_layout (numSlots : Z) :
  numSlots = 3 \/ numSlots = 4 \/ numSlots = 5 ->
  Z.of_nat (length (drawSlots numSlots)) = numSlots /\
  (forall (i : nat) (e : Event),
      drawSlots numSlots !! i = Some e ->
      exists x w,
        e = drawRect x 0 w 15 (Color333 1 1 1) /\
        0 <= x /\ 0 < w /\ x + w <= 32) /\
  (forall (i : nat) (e1 e2 : Event) x1 y1 w1 h1 x2 y2 w2 h2,
      drawSlots numSlots !! i = Some e1 ->
      drawSlots numSlots !! S i = Some e2 ->
      rectangle e1 = Some (x1, y1, w1, h1) ->
      rectangle e2 = Some (x2, y2, w2, h2) ->
      x1 + w1 < x2).
Proof.
  intros Hslots.
  assert (Hframes :
            drawSlots numSlots
            = [drawRect 0 0 10 15 (Color333 1 1 1);
               drawRect 11 0 10 15 (Color333 1 1 1);
               drawRect 22 0 10 15 (Color333 1 1 1)] /\ numSlots = 3 \/
            drawSlots numSlots
            = [drawRect 0 0 7 15 (Color333 1 1 1);
               drawRect 8 0 7 15 (Color333 1 1 1);
               drawRect 16 0 7 15 (Color333 1 1 1);
               drawRect 24 0 7 15 (Color333 1 1 1)] /\ numSlots = 4 \/
            drawSlots numSlots
            = [drawRect 1 0 5 15 (Color333 1 1 1);
               drawRect 7 0 5 15 (Color333 1 1 1);
               drawRect 13 0 5 15 (Color333 1 1 1);
               drawRect 19 0 5 15 (Color333 1 1 1);
               drawRect 25 0 5 15 (Color333 1 1 1)] /\ numSlots = 5).
  { destruct Hslots as [-> | [-> | ->]];
      [left|right; left|right; right]; split; reflexivity. }
  destruct Hframes as [[-> ->] | [[-> ->] | [-> ->]]];
    (split; [reflexivity|]; split;
     [ intros i e He; slot_cases i; cbn in He; try discriminate;
       injection He as <-; eexists _, _; (split; [reflexivity|lia])
     | intros i e1 e2 x1 y1 w1 h1 x2 y2 w2 h2 He1 He2 Hr1 Hr2;
       slot_cases i; cbn in He1, He2; try discriminate;
       injection He1 as <-; injection He2 as <-; cbn in Hr1, Hr2;
       injection Hr1 as <- <- <- <-; injection Hr2 as <- <- <- <-; lia ]).
Qed.

Lemma drawSlots_layout_witness :
  Z.of_nat (length (drawSlots 4)) = 4 /\
  (forall (i : nat) (e : Event),
      drawSlots 4 !! i = Some e ->
      exists x w,
        e = drawRect x 0 w 15 (Color333 1 1 1) /\
        0 <= x /\ 0 < w /\ x + w <= 32) /\
  (forall (i : nat) (e1 e2 : Event) x1 y1 w1 h1 x2 y2 w2 h2,
      drawSlots 4 !! i = Some e1 ->
      drawSlots 4 !! S i = Some e2 ->
      rectangle e1 = Some (x1, y1, w1, h1) ->
      rectangle e2 = Some (x2, y2, w2, h2) ->
      x1 + w1 < x2).
Proof. apply (drawSlots_layout 4). right. left. reflexivity. Defined.

(** X14. For 3, 4 or 5 slots and a slot of the row, [drawCard] fills exactly
    the inside of the frame [drawSlots] draws for that slot: one column and
    one row in from the frame on every side. *)
Theorem drawCard_fills_frame (color : Color) (slot numSlots : Z) :
  numSlots = 3 \/ numSlots = 4 \/ numSlots = 5 ->
  0 <= slot < numSlots ->
  exists x y w h frame_colour card_colour,
    drawSlots numSlots !! Z.to_nat slot
    = Some (drawRect x y w h frame_colour) /\
    drawCard color slot numSlots
    = [fillRect (x + 1) (y + 1) (w - 2) (h - 2) card_colour].
Proof.
  intros Hslots Hslot.
  assert (Hcases : slot = 0 \/ slot = 1 \/ slot = 2 \/ slot = 3 \/ slot = 4)
    by lia.
  destruct Hslots as [-> | [-> | ->]];
    destruct Hcases as [-> | [-> | [-> | [-> | ->]]]]; try lia;
    destruct color; do 6 eexists; split; reflexivity.
Qed.

Lemma drawCard_fills_frame_witness :
  exists x y w h frame_colour card_colour,
    drawSlots 5 !! Z.to_nat 3 = Some (drawRect x y w h frame_colour) /\
    drawCard blue 3 5
    = [fillRect (x + 1) (y + 1) (w - 2) (h - 2) card_colour].
Proof.
  apply (drawCard_fills_frame blue 3 5); [right; right; reflexivity|lia].
Defined.

(** X15. For any other number of slots nothing is drawn: [drawSlots] draws
    no frame, and [drawCard] no card, whatever the colour and the slot. *)
Theorem drawSlots_drawCard_other_counts (numSlots : Z) :
  numSlots <> 3 -> numSlots <> 4 -> numSlots <> 5 ->
  drawSlots numSlots = [] /\
  (forall color slot, drawCard color slot numSlots = []).
Proof.
  intros H3 H4 H5. split.
  - now apply drawSlots_loop_nothing.
  - intros color slot. unfold drawCard.
    destruct color;
      destruct (Z.eqb_spec numSlots 3); try contradiction;
      destruct (Z.eqb_spec numSlots 4); try contradiction;
      destruct (Z.eqb_spec numSlots 5); try contradiction; reflexivity.
Qed.

Lemma drawSlots_drawCard_other_counts_witness :
  drawSlots 1 = [] /\ (forall color slot, drawCard color slot 1 = []).
Proof. apply (drawSlots_drawCard_other_counts 1); lia. Defined.

(** X16. After scoring a guess against a hidden set, both of [numSlots]
    cells with [numSlots] at most 5, the text shown names the number of
    indices at which they agree, followed by RIGHT. For a number below 0 or
    above 5 [printNumRightGuesses] prints no number, only RIGHT. *)
Theorem printNumRightGuesses_names_score (guess target : list Color)
    (numSlots : Z) :
  (length guess = Z.to_nat numSlots ->
   length target = Z.to_nat numSlots ->
   0 <= numSlots <= 5 ->
   ["NONERIGHT"; "ONERIGHT"; "TWORIGHT"; "THREERIGHT"; "FOURRIGHT";
    "FIVERIGHT"] !! Z.to_nat (agreements guess target)
   = Some (printed_text
             (printNumRightGuesses
                (numRightGuesses
                   (removeWrongGuesses guess target numSlots))))) /\
  (forall n, n < 0 \/ 5 < n ->
             printed_text (printNumRightGuesses n) = "RIGHT").
Proof.
  split.
  - intros Hg Ht Hslots. rewrite removeWrongGuesses_masked by assumption.
    cbn [numRightGuesses].
    assert (Hlen : length guess = length target) by congruence.
    pose proof (agreements_disagreements guess target Hlen) as Hsum.
    pose proof (disagreements_nonneg guess target) as Hd.
    replace (numSlots - disagreements guess target)
      with (agreements guess target) by lia.
    assert (Ha : 0 <= agreements guess target <= 5).
    { split; [|lia]. clear. revert target.
      induction guess as [|g guess IH]; intros [|t target];
        cbn [agreements]; try lia.
      specialize (IH target). destruct (bool_decide (g = t)); lia. }
    assert (Hcases : agreements guess target = 0 \/
                     agreements guess target = 1 \/
                     agreements guess target = 2 \/
                     agreements guess target = 3 \/
                     agreements guess target = 4 \/
                     agreements guess target = 5) by lia.
    destruct Hcases as [-> | [-> | [-> | [-> | [-> | ->]]]]]; reflexivity.
  - intros n Hn. unfold printNumRightGuesses.
    destruct (Z.eqb_spec n 0); [lia|]. destruct (Z.eqb_spec n 1); [lia|].
    destruct (Z.eqb_spec n 2); [lia|]. destruct (Z.eqb_spec n 3); [lia|].
    destruct (Z.eqb_spec n 4); [lia|]. destruct (Z.eqb_spec n 5); [lia|].
    reflexivity.
Qed.

Lemma printNumRightGuesses_names_score_witness :
  ["NONERIGHT"; "ONERIGHT"; "TWORIGHT"; "THREERIGHT"; "FOURRIGHT";
   "FIVERIGHT"]
    !! Z.to_nat (agreements [red; green; blue; red] [red; blue; green; red])
  = Some (printed_text
            (printNumRightGuesses
               (numRightGuesses
                  (removeWrongGuesses [red; green; blue; red]
                     [red; blue; green; red] 4)))).
Proof.
  apply (proj1 (printNumRightGuesses_names_score [red; green; blue; red]
                  [red; blue; green; red] 4)); [reflexivity|reflexivity|lia].
Defined.

(** ** What the player is shown after a guess *)

Lemma drawCard_single (color : Color) (slot numSlots : Z) :
  numSlots = 3 \/ numSlots = 4 \/ numSlots = 5 ->
  exists e, drawCard color slot numSlots = [e].
Proof.
  intros [-> | [-> | ->]]; destruct color; eexists; reflexivity.
Qed.

Lemma removeWrongGuesses_cards_lookup (numSlots : Z)
    (guessedCorrectlySet : list Color) (remaining : nat) :
  numSlots = 3 \/ numSlots = 4 \/ numSlots = 5 ->
  forall (j k : nat),
    (k < remaining)%nat ->
    removeWrongGuesses_cards remaining j guessedCorrectlySet numSlots !! k
    = drawCard (guessedCorrectlySet !!! (j + k)%nat) (Z.of_nat (j + k))
        numSlots !! 0%nat.
Proof.
  intros Hslots. induction remaining as [|n IH]; intros j k Hk; [lia|].
  cbn [removeWrongGuesses_cards].
  destruct (drawCard_single (guessedCorrectlySet !!! j) (Z.of_nat j)
              numSlots Hslots) as [e He].
  rewrite He. destruct k as [|k].
  - rewrite Nat.add_0_r, He. reflexivity.
  - cbn [app lookup list_lookup]. rewrite IH by lia.
    now replace (S j + k)%nat with (j + S k)%nat by lia.
Qed.

Lemma removeWrongGuesses_delays_count (remaining : nat) :
  forall (gpre gsuf tpre tsuf : list Color),
    length gpre = length tpre ->
    length gsuf = remaining -> length tsuf = remaining ->
    removeWrongGuesses_delays remaining (length gpre) (gpre ++ gsuf)
      (tpre ++ tsuf)
    = replicate (Z.to_nat (disagreements gsuf tsuf)) (delay 500).
Proof.
  induction remaining as [|n IH]; intros gpre gsuf tpre tsuf Hpre Hg Ht.
  - destruct gsuf, tsuf; try discriminate. reflexivity.
  - destruct gsuf as [|g gsuf], tsuf as [|t tsuf]; try discriminate.
    injection Hg as Hg. injection Ht as Ht.
    cbn [removeWrongGuesses_delays disagreements].
    rewrite !list_lookup_total_middle by congruence.
    pose proof (disagreements_nonneg gsuf tsuf) as Hd.
    assert (Hrest :
              removeWrongGuesses_delays n (S (length gpre))
                (gpre ++ g :: gsuf) (tpre ++ t :: tsuf)
              = replicate (Z.to_nat (disagreements gsuf tsuf)) (delay 500)).
    { rewrite (cons_middle g gpre gsuf), (cons_middle t tpre tsuf),
        !app_assoc.
      replace (S (length gpre)) with (length (gpre ++ [g]))
        by (rewrite length_app; simpl; lia).
      apply IH; [rewrite !length_app; simpl; lia|assumption..]. }
    rewrite Hrest. destruct (bool_decide (g <> t)).
    + replace (Z.to_nat (1 + disagreements gsuf tsuf))
        with (S (Z.to_nat (disagreements gsuf tsuf))) by lia.
      reflexivity.
    + reflexivity.
Qed.

(** X17. After a guess is scored (3, 4 or 5 slots), the first loop has
    paused 500 ms once for every wrong guess counted, and the card drawn in
    slot [j] is the guessed card where the guess is right and the blank card
    (black) where it is wrong. *)
Theorem removeWrongGuesses_feedback (guess target : list Color)
    (numSlots : Z) :
  numSlots = 3 \/ numSlots = 4 \/ numSlots = 5 ->
  length guess = Z.to_nat numSlots ->
  length target = Z.to_nat numSlots ->
  removeWrongGuesses_delays (Z.to_nat numSlots) 0 guess target
  = replicate
      (Z.to_nat (numWrongGuesses (removeWrongGuesses guess target numSlots)))
      (delay 500) /\
  (forall (j : nat) (g t : Color),
      guess !! j = Some g -> target !! j = Some t ->
      removeWrongGuesses_cards (Z.to_nat numSlots) 0
        (guessedCorrectlySet (removeWrongGuesses guess target numSlots))
        numSlots !! j
      = drawCard (if bool_decide (g = t) then g else none) (Z.of_nat j)
          numSlots !! 0%nat).
Proof.
  intros Hslots Hg Ht. rewrite removeWrongGuesses_masked by assumption.
  cbn [numWrongGuesses guessedCorrectlySet]. split.
  - exact (removeWrongGuesses_delays_count _ [] guess [] target eq_refl
             Hg Ht).
  - intros j g t Hgj Htj.
    rewrite removeWrongGuesses_cards_lookup;
      [|exact Hslots|apply lookup_lt_Some in Hgj; lia].
    cbn [Nat.add].
    rewrite (list_lookup_total_correct _ _ _
               (masked_lookup _ _ _ _ _ Hgj Htj)).
    destruct (decide (g = t)) as [E|E].
    + rewrite (bool_decide_eq_true_2 _ E).
      now rewrite (bool_decide_eq_false_2 (g <> t)) by tauto.
    + rewrite (bool_decide_eq_false_2 _ E).
      now rewrite (bool_decide_eq_true_2 _ E).
Qed.

Lemma removeWrongGuesses_feedback_witness :
  removeWrongGuesses_delays (Z.to_nat 3) 0 [red; green; blue]
    [red; blue; green]
  = replicate
      (Z.to_nat
         (numWrongGuesses
            (removeWrongGuesses [red; green; blue] [red; blue; green] 3)))
      (delay 500).
Proof.
  apply (removeWrongGuesses_feedback [red; green; blue] [red; blue; green] 3);
    [left; reflexivity|reflexivity|reflexivity].
Defined.

(** ** One pass of [loop] *)

Lemma startScreen_first_card `{H : Host} (pre : list RawReading)
    (x : RawReading) (rest : list RawReading) :
  Forall (fun y => classifySample y = none) pre ->
  classifySample x <> none ->
  startScreen (pre ++ x :: rest)
  = match startScreen_level (classifySample x) with
    | Some level => Some (level, rest)
    | None => None
    end.
Proof.
  intros Hpre Hx. unfold startScreen.
  rewrite startScreen_loop_first by lia.
  now rewrite (first_card_skip pre x rest Hpre Hx).
Qed.

Lemma startScreen_level_range (color : Color) (level : Z) :
  startScreen_level color = Some level -> 1 <= level <= 3.
Proof. destruct color; cbn; intros [= <-]; lia. Qed.

(** X18. One pass of [loop] in which the first card shown at the prompt is
    [x]: the level played is the one that card selects, between 1 and 3; the
    game reads its guesses from the samples that follow the card, between
    one and [level + 2] guesses of [level + 2] cells each; and the closing
    screen reads YOUWIN when the last guess read equals the hidden set and
    YOULOSE otherwise. *)
Theorem loop_plays_chosen_level `{H : Host} (rng entropy : Z)
    (indet : nat -> nat -> Color) (pre : list RawReading) (x : RawReading)
    (rest : list RawReading) (level : Z) (run : GameRun)
    (events : list Event) (s' : list RawReading) :
  Forall (fun y => classifySample y = none) pre ->
  classifySample x <> none ->
  loop rng entropy indet (pre ++ x :: rest) = Some ((level, run, events), s') ->
  startScreen_level (classifySample x) = Some level /\
  1 <= level <= 3 /\
  game rng entropy indet level rest = Some (run, s') /\
  1 <= Z.of_nat (length (attempts run)) <= level + 2 /\
  Forall (fun guess => Z.of_nat (length guess) = level + 2) (attempts run) /\
  (last (attempts run) = Some (target_of rng entropy level) ->
   printed_text events = "YOUWIN") /\
  (last (attempts run) <> Some (target_of rng entropy level) ->
   printed_text events = "YOULOSE").
Proof.
  intros Hpre Hx. unfold loop, bind.
  rewrite (startScreen_first_card pre x rest Hpre Hx).
  destruct (startScreen_level (classifySample x)) as [level0|] eqn:Hlevel;
    [|discriminate].
  pose proof (startScreen_level_range _ _ Hlevel) as Hrange.
  destruct (game rng entropy indet level0 rest) as [[run0 s0]|] eqn:Hgame;
    [|discriminate].
  intros [= <- <- <- <-].
  split; [reflexivity|]. split; [exact Hrange|]. split; [exact Hgame|].
  rewrite game_unfold in Hgame.
  destruct (game_loop_shape indet _ _ (target_of_length rng entropy level0)
              _ _ _ _ _ _ (length_replicate _ _) Hgame)
    as (Hle & Hpos & Hall & Hout & _).
  split; [lia|]. split.
  { eapply Forall_impl; [exact Hall|]. intros guess [Hl _]. lia. }
  destruct (outcome run0).
  - split; [reflexivity|]. intros Hlast. contradiction Hlast. now apply Hout.
  - split; [|reflexivity]. intros Hlast. apply Hout in Hlast. discriminate.
Qed.

Lemma loop_plays_chosen_level_witness :
  game (H := host16) 0 2 (fun _ _ => none) 1
    [red_card; green_card; blue_card; no_card]
  = Some (mkRun true [[red; green; blue]], [no_card]).
Proof.
  apply (loop_plays_chosen_level (H := host16) 0 2 (fun _ _ => none)
           [no_card; no_card] green_card
           [red_card; green_card; blue_card; no_card] 1
           (mkRun true [[red; green; blue]])
           (clearScreen ++ winScreen ++ [delay 3000] ++ clearScreen)
           [no_card]).
  - repeat (apply Forall_cons; split; [vm_compute; reflexivity|]).
    apply Forall_nil_2.
  - vm_compute. discriminate.
  - vm_compute. reflexivity.
Defined.

(** ** The classifier, colour by colour *)

(** X19. For a sample of 16-bit channels whose sum g + b does not wrap, the
    three colours exclude one another, so the order of the tests does not
    matter: the sample is red exactly when it is bright (clear above 500)
    and r exceeds g + b, blue exactly when it is bright and b is strictly
    the largest channel, green exactly when it is bright and g is strictly
    the largest channel. *)
Theorem getColor_by_colour `{H : Host} (s : RawReading) :
  uint16_reading s -> sum_exact s ->
  (classifySample s = red
   <-> 500 < raw_clear s /\ raw_g s + raw_b s < raw_r s) /\
  (classifySample s = blue
   <-> 500 < raw_clear s /\ raw_g s < raw_b s /\ raw_r s < raw_b s) /\
  (classifySample s = green
   <-> 500 < raw_clear s /\ raw_r s < raw_g s /\ raw_b s < raw_g s).
Proof.
  intros Hrange Hsum. unfold classifySample.
  rewrite (uint16_add_exact s Hrange Hsum).
  destruct Hrange as ([Hr _] & [Hg _] & [Hb _] & _).
  destruct (Z.gtb_spec (raw_clear s) 500);
    destruct (Z.gtb_spec (raw_r s) (raw_g s + raw_b s));
    destruct (Z.gtb_spec (raw_b s) (raw_g s));
    destruct (Z.gtb_spec (raw_b s) (raw_r s));
    destruct (Z.gtb_spec (raw_g s) (raw_r s));
    destruct (Z.gtb_spec (raw_g s) (raw_b s));
    cbn [andb]; repeat split; intros; try discriminate; try lia.
Qed.

Lemma getColor_by_colour_witness :
  classifySample (H := host16) green_card = green
  <-> 500 < raw_clear green_card /\
      raw_r green_card < raw_g green_card /\
      raw_b green_card < raw_g green_card.
Proof.
  apply (getColor_by_colour (H := host16) green_card).
  - unfold uint16_reading, is_uint16. simpl. lia.
  - right. simpl. lia.
Defined.
